(** * DotOcr front end: a shallow embedding of the client and its properties

    The development follows the TypeScript sources of the browser client:

    - [services/api.ts]             the API client ([ApiService]);
    - [components/OCRInterface.tsx] the orchestrator that owns the UI state;
    - [components/Sidebar.tsx]      the upload / prompt selection panel;
    - [components/OutputPanel.tsx]  the output tabs, copy and download;
    - [components/DocumentPreview.tsx] the local preview of the chosen file.

    Part I holds the definitions, module by module; Part II the lemmas and
    the theorems about them. *)

From Stdlib Require Import NArith List Lia Ascii String DecimalString.
From stdpp Require Import base decidable option list gmap.

Local Open Scope N_scope.
Local Set Warnings "-register-all".

(* ===================================================================== *)
(** * Part I: definitions                                                 *)
(* ===================================================================== *)

(* --------------------------------------------------------------------- *)
(** ** JavaScript strings                                                 *)
(* --------------------------------------------------------------------- *)

(** A JavaScript string is a sequence of UTF-16 code units. *)
Definition code_unit := N.
Definition jsstring := list code_unit.

(** Decoding of the UTF-8 bytes of a literal of this file into code points,
    then into UTF-16 code units (a surrogate pair above the basic plane). *)
Fixpoint utf8_code_points (bs : list N) : list N :=
  match bs with
  | [] => []
  | b0 :: t0 =>
    if b0 <? 128 then b0 :: utf8_code_points t0
    else
      match t0 with
      | [] => []
      | b1 :: t1 =>
        if b0 <? 224 then
          ((b0 - 192) * 64 + (b1 - 128)) :: utf8_code_points t1
        else
          match t1 with
          | [] => []
          | b2 :: t2 =>
            if b0 <? 240 then
              ((b0 - 224) * 4096 + (b1 - 128) * 64 + (b2 - 128))
                :: utf8_code_points t2
            else
              match t2 with
              | [] => []
              | b3 :: t3 =>
                ((b0 - 240) * 262144 + (b1 - 128) * 4096
                 + (b2 - 128) * 64 + (b3 - 128)) :: utf8_code_points t3
              end
          end
      end
  end.

Definition utf16_units (cp : N) : jsstring :=
  if cp <? 65536 then [cp]
  else [55296 + (cp - 65536) / 1024; 56320 + (cp - 65536) mod 1024].

(** [lit "..."] is the JavaScript string written by that literal. *)
Definition lit (s : string) : jsstring :=
  flat_map utf16_units
    (utf8_code_points (map N_of_ascii (list_ascii_of_string s))).

(** [String.prototype.startsWith]. *)
Fixpoint startsWith (s prefix : jsstring) {struct prefix} : bool :=
  match prefix, s with
  | [], _ => true
  | p :: prefix', c :: s' => (c =? p) && startsWith s' prefix'
  | _ :: _, [] => false
  end.

(** [String.prototype.includes]: [needle] occurs in [s] as a substring. *)
Fixpoint includes (s needle : jsstring) : bool :=
  startsWith s needle ||
  match s with
  | [] => false
  | _ :: s' => includes s' needle
  end.

(** The number of positions of [s] at which [needle] occurs. *)
Fixpoint occurrences (needle s : jsstring) : nat :=
  match s with
  | [] => 0%nat
  | _ :: s' =>
    ((if startsWith s needle then 1 else 0) + occurrences needle s')%nat
  end.

(** Decimal notation of a non-negative integer, as [Number.prototype.toString]
    prints it. *)
Definition decimal (n : N) : jsstring :=
  lit (NilZero.string_of_uint (N.to_uint n)).

(* --------------------------------------------------------------------- *)
(** ** Results of fallible and asynchronous code                          *)
(* --------------------------------------------------------------------- *)

(** What a [throw] (or a rejected promise) carries.  Every error the client
    meets is an instance of [Error]; [NonError] stands for any other thrown
    value. *)
Inductive thrown :=
| ErrorObject (name message : jsstring)
| NonError.

(** [new Error(message)]. *)
Definition Error (message : jsstring) : thrown :=
  ErrorObject (lit "Error") message.

(** A call either returns (an [async] function: resolves) or throws
    (rejects). *)
Inductive result (A : Type) :=
| Ok (a : A)
| Throw (e : thrown).
Arguments Ok {A} a.
Arguments Throw {A} e.

(** Sequencing: a [throw] (an [await] on a rejected promise) skips the rest.
    Written [x ← r; k]. *)
#[global] Instance result_bind : MBind result :=
  fun A B (k : A -> result B) (r : result A) =>
    match r with
    | Ok a => k a
    | Throw e => Throw e
    end.

(* --------------------------------------------------------------------- *)
(** ** The JavaScript engine and the values of a parsed JSON body         *)
(* --------------------------------------------------------------------- *)

(** What the development takes from the engine and the build environment:
    the IEEE numbers with their truthiness and printing, the messages of the
    engine's own [TypeError]s, and the configured base URL. *)
Class Engine := {
  number : Type;
  (** [+0], [-0] and [NaN] are falsy *)
  number_falsy : number -> bool;
  Number_toString : number -> jsstring;
  (** message of the [TypeError] for reading property [p] of [null] or
      [undefined] *)
  null_property_message : jsstring -> jsstring;
  (** message of the [TypeError] for an object without a usable [toString] *)
  to_primitive_message : jsstring;
  (** [import.meta.env.VITE_API_BASE_URL] *)
  VITE_API_BASE_URL : option jsstring
}.

Definition TypeError (message : jsstring) : thrown :=
  ErrorObject (lit "TypeError") message.

Section Values.
Context `{Engine}.

(** A JavaScript value as [JSON.parse] builds it, plus [undefined] (what a
    missing property reads as).  An object is the list of its own properties in
    insertion order; their keys are distinct. *)
Inductive value :=
| VUndefined
| VNull
| VBool (b : bool)
| VNum (n : number)
| VStr (s : jsstring)
| VArr (elements : list value)
| VObj (properties : list (jsstring * value)).

(** An own property of an object. *)
Fixpoint own_property (properties : list (jsstring * value)) (key : jsstring)
  : option value :=
  match properties with
  | [] => None
  | (k, v) :: rest =>
    if bool_decide (k = key) then Some v else own_property rest key
  end.

(** [v.key] for a property name that no built-in prototype defines (such as
    [detail] and [msg]): only a plain object can have it, and reading it from
    [null] or [undefined] throws. *)
Definition Get (v : value) (key : jsstring) : result value :=
  match v with
  | VUndefined | VNull => Throw (TypeError (null_property_message key))
  | VObj properties => Ok (default VUndefined (own_property properties key))
  | _ => Ok VUndefined
  end.

(** [v[0]] on a value that is neither [null] nor [undefined]: the first element
    of an array, the first code unit of a string, the property ["0"] of an
    object. *)
Definition Get_index0 (v : value) : result value :=
  match v with
  | VUndefined | VNull => Throw (TypeError (null_property_message (lit "0")))
  | VArr elements => Ok (default VUndefined (head elements))
  | VStr s => Ok (match s with [] => VUndefined | c :: _ => VStr [c] end)
  | VObj properties => Ok (default VUndefined (own_property properties (lit "0")))
  | _ => Ok VUndefined
  end.

(** Optional chaining [v?.access]: [undefined] when [v] is [null] or
    [undefined], the access otherwise. *)
Definition optional (v : value) (access : value -> result value)
  : result value :=
  match v with
  | VUndefined | VNull => Ok VUndefined
  | _ => access v
  end.

(** [ToBoolean]. *)
Definition truthy (v : value) : bool :=
  match v with
  | VUndefined | VNull => false
  | VBool b => b
  | VNum n => negb (number_falsy n)
  | VStr s => negb (bool_decide (s = []))
  | VArr _ | VObj _ => true
  end.

(** [a || b] when evaluating [b] has no effect. *)
Definition or_else (a b : value) : value := if truthy a then a else b.

(** [ToString], as a template literal applies it.  An array prints its
    elements joined by commas, [null] and [undefined] elements as nothing; a
    plain object prints as [[object Object]] unless an own [toString] property
    (never callable in parsed JSON) hides [Object.prototype.toString]. *)
Fixpoint ToString (v : value) : result jsstring :=
  match v with
  | VUndefined => Ok (lit "undefined")
  | VNull => Ok (lit "null")
  | VBool true => Ok (lit "true")
  | VBool false => Ok (lit "false")
  | VNum n => Ok (Number_toString n)
  | VStr s => Ok s
  | VArr elements =>
    (fix join (first : bool) (l : list value) : result jsstring :=
       match l with
       | [] => Ok []
       | x :: rest =>
         sx ← match x with
              | VUndefined | VNull => Ok []
              | _ => ToString x
              end;
         srest ← join false rest;
         Ok ((if first then [] else lit ",") ++ sx ++ srest)
       end) true elements
  | VObj properties =>
    match own_property properties (lit "toString") with
    | Some _ => Throw (TypeError to_primitive_message)
    | None => Ok (lit "[object Object]")
    end
  end.

End Values.

(* --------------------------------------------------------------------- *)
(** ** The browser                                                        *)
(* --------------------------------------------------------------------- *)

(** UTF-8 encoding of a string, as the [Blob] constructor performs it: a
    surrogate pair is one code point, a lone surrogate becomes U+FFFD. *)
Definition utf8_of_code_point (cp : N) : list N :=
  if cp <? 128 then [cp]
  else if cp <? 2048 then [192 + cp / 64; 128 + cp mod 64]
  else if cp <? 65536 then
    [224 + cp / 4096; 128 + (cp / 64) mod 64; 128 + cp mod 64]
  else
    [240 + cp / 262144; 128 + (cp / 4096) mod 64;
     128 + (cp / 64) mod 64; 128 + cp mod 64].

Definition high_surrogate (c : code_unit) : bool :=
  (55296 <=? c) && (c <? 56320).
Definition low_surrogate (c : code_unit) : bool :=
  (56320 <=? c) && (c <? 57344).

Fixpoint utf8_encode (s : jsstring) : list N :=
  match s with
  | [] => []
  | c :: rest =>
    if high_surrogate c then
      match rest with
      | d :: rest' =>
        if low_surrogate d then
          utf8_of_code_point (65536 + (c - 55296) * 1024 + (d - 56320))
            ++ utf8_encode rest'
        else utf8_of_code_point 65533 ++ utf8_encode rest
      | [] => utf8_of_code_point 65533
      end
    else if low_surrogate c then utf8_of_code_point 65533 ++ utf8_encode rest
    else utf8_of_code_point c ++ utf8_encode rest
  end.

(** A [Blob]: bytes and a MIME type. *)
Record Blob := {
  blob_bytes : list N;
  blob_type : jsstring
}.

(** [new Blob(parts, { type })] for string parts. *)
Definition new_Blob (parts : list jsstring) (type : jsstring) : Blob :=
  {| blob_bytes := flat_map utf8_encode parts; blob_type := type |}.

(** A [File] chosen by the user: a [Blob] with a name. *)
Record File := {
  file_name : jsstring;
  file_size : N;
  file_type : jsstring;
  file_bytes : list N
}.

Definition File_blob (f : File) : Blob :=
  {| blob_bytes := file_bytes f; blob_type := file_type f |}.

(** [FormData]: an ordered list of name / value entries; [append] adds one
    at the end. *)
Inductive FormDataEntryValue :=
| FormFile (file : File)
| FormString (s : jsstring).

Definition FormData := list (jsstring * FormDataEntryValue).

Definition append (name : jsstring) (v : FormDataEntryValue) (fd : FormData)
  : FormData := fd ++ [(name, v)].

(** What [fetch] is called with. *)
Record Request := {
  request_url : jsstring;
  request_method : jsstring;
  request_body : option FormData
}.

(** A toast of the [useToast] hook. *)
Record Toast := {
  toast_title : jsstring;
  toast_description : jsstring;
  toast_variant : option jsstring
}.

(** An object URL ([blob:...]) is identified by the number the browser gave
    it; it is a non-empty string, so it is truthy. *)
Definition ObjectURL := N.

(** The part of the browser the client acts on: the blob URL store, the
    requests sent so far, the clipboard, the files saved by download links,
    the toasts shown and the errors written to the console. *)
Record Browser := {
  object_urls : gmap N Blob;
  next_object_url : N;
  requests : list Request;
  clipboard : option jsstring;
  downloads : list (jsstring * Blob);
  toasts : list Toast;
  console : list (jsstring * thrown)
}.

Definition initial_browser : Browser :=
  {| object_urls := ∅; next_object_url := 0; requests := [];
     clipboard := None; downloads := []; toasts := []; console := [] |}.

Definition with_object_urls (urls : gmap N Blob) (next : N) (w : Browser)
  : Browser :=
  {| object_urls := urls; next_object_url := next;
     requests := requests w; clipboard := clipboard w;
     downloads := downloads w; toasts := toasts w; console := console w |}.

(** [URL.createObjectURL(blob)]: a fresh URL, registered in the store. *)
Definition createObjectURL (blob : Blob) (w : Browser) : ObjectURL * Browser :=
  let url := next_object_url w in
  (url, with_object_urls (<[url := blob]> (object_urls w)) (N.succ url) w).

(** [URL.revokeObjectURL(url)]. *)
Definition revokeObjectURL (url : ObjectURL) (w : Browser) : Browser :=
  with_object_urls (delete url (object_urls w)) (next_object_url w) w.

(** [fetch(request)] puts the request on the wire. *)
Definition send (request : Request) (w : Browser) : Browser :=
  {| object_urls := object_urls w; next_object_url := next_object_url w;
     requests := requests w ++ [request]; clipboard := clipboard w;
     downloads := downloads w; toasts := toasts w; console := console w |}.

(** [navigator.clipboard.writeText(text)]. *)
Definition writeText (text : jsstring) (w : Browser) : Browser :=
  {| object_urls := object_urls w; next_object_url := next_object_url w;
     requests := requests w; clipboard := Some text;
     downloads := downloads w; toasts := toasts w; console := console w |}.

(** [toast({ ... })]. *)
Definition toast (t : Toast) (w : Browser) : Browser :=
  {| object_urls := object_urls w; next_object_url := next_object_url w;
     requests := requests w; clipboard := clipboard w;
     downloads := downloads w; toasts := toasts w ++ [t];
     console := console w |}.

(** [console.error(label, error)]. *)
Definition console_error (label : jsstring) (e : thrown) (w : Browser)
  : Browser :=
  {| object_urls := object_urls w; next_object_url := next_object_url w;
     requests := requests w; clipboard := clipboard w;
     downloads := downloads w; toasts := toasts w;
     console := console w ++ [(label, e)] |}.

(** A click on an anchor [<a href=url download=filename>]: the browser saves
    what the object URL denotes under that name (nothing when the URL is not
    registered). *)
Definition click_download_link (href : ObjectURL) (filename : jsstring)
  (w : Browser) : Browser :=
  match object_urls w !! href with
  | Some blob =>
    {| object_urls := object_urls w; next_object_url := next_object_url w;
       requests := requests w; clipboard := clipboard w;
       downloads := downloads w ++ [(filename, blob)]; toasts := toasts w;
       console := console w |}
  | None => w
  end.

(* --------------------------------------------------------------------- *)
(** ** services/api.ts                                                    *)
(* --------------------------------------------------------------------- *)

Module Api.
Section Api.
Context `{Engine}.

(** [const API_BASE_URL = import.meta.env.VITE_API_BASE_URL ||
    'http://localhost:8000'] *)
Definition API_BASE_URL : jsstring :=
  match VITE_API_BASE_URL with
  | Some ((_ :: _) as url) => url
  | _ => lit "http://localhost:8000"
  end.

Record Prompt := {
  id : jsstring;
  name : jsstring;
  description : jsstring
}.

Record ParseData := {
  markdown : jsstring;
  rawText : jsstring
}.

Record ParseMetadata := {
  storage_key : jsstring;
  model : jsstring;
  processing_time_ms : number;
  request_id : jsstring;
  file_size_kb : number
}.

Record ParseResponse := {
  success : bool;
  data : ParseData;
  metadata : ParseMetadata
}.

(** The fields of a fetch [Response] that the client reads.  [json_body] is
    the outcome of [response.json()]: the parsed body, or the [SyntaxError]
    it rejects with. *)
Record Response := {
  status : N;
  statusText : jsstring;
  json_body : result value
}.

(** [response.ok]: the status is in the range 200-299. *)
Definition ok (response : Response) : bool :=
  (200 <=? status response) && (status response <=? 299).

(** [fetch(request)]: the request goes out and the network answers. *)
Definition fetch (net : Request -> result Response) (request : Request)
  (w : Browser) : Browser * result Response :=
  (send request w, net request).

(** [ApiService.handleResponse]. *)
Definition handleResponse (response : Response) : result value :=
  if negb (ok response) then
    if status response =? 422 then
      error ← json_body response;
      detail ← Get error (lit "detail");
      first ← optional detail Get_index0;
      msg ← optional first (fun v => Get v (lit "msg"));
      text ← ToString (or_else msg (VStr (lit "Invalid input")));
      Throw (Error (lit "Validation Error: " ++ text))
    else
      Throw (Error (lit "HTTP " ++ decimal (status response)
                    ++ lit ": " ++ statusText response))
  else
    json_body response.

(** [ApiService.getPrompts]: the [prompts] member of the body. *)
Definition getPrompts_request : Request :=
  {| request_url := API_BASE_URL ++ lit "/api/v1/prompts/";
     request_method := lit "GET";
     request_body := None |}.

Definition getPrompts (net : Request -> result Response) (w : Browser)
  : Browser * result value :=
  let '(w, response) := fetch net getPrompts_request w in
  (w, response ← response; data ← handleResponse response;
      Get data (lit "prompts")).

(** [ApiService.parseDocument]: the form data it builds, the request, and the
    whole call. *)
Definition parseDocument_formData (file : File) (promptId : jsstring)
  : FormData :=
  let formData := [] in
  let formData := append (lit "file") (FormFile file) formData in
  let formData := append (lit "promptId") (FormString promptId) formData in
  formData.

Definition parseDocument_request (file : File) (promptId : jsstring)
  : Request :=
  {| request_url := API_BASE_URL ++ lit "/api/v1/parse/";
     request_method := lit "POST";
     request_body := Some (parseDocument_formData file promptId) |}.

Definition parseDocument (net : Request -> result Response)
  (file : File) (promptId : jsstring) (w : Browser)
  : Browser * result value :=
  let '(w, response) := fetch net (parseDocument_request file promptId) w in
  (w, response ← response; handleResponse response).

(** [ApiService.healthCheck]. *)
Definition healthCheck_request : Request :=
  {| request_url := API_BASE_URL ++ lit "/";
     request_method := lit "GET";
     request_body := None |}.

Definition healthCheck (net : Request -> result Response) (w : Browser)
  : Browser * result value :=
  let '(w, response) := fetch net healthCheck_request w in
  (w, response ← response; handleResponse response).

End Api.
End Api.

(* --------------------------------------------------------------------- *)
(** ** components/OCRInterface.tsx                                        *)
(* --------------------------------------------------------------------- *)

Module OCRInterface.
Section OCRInterface.
Context `{Engine}.

(** The four [useState] cells of the component. *)
Record State := {
  selectedFile : option File;
  isLoading : bool;
  hasOutput : bool;
  outputData : option Api.ParseResponse
}.

Definition initial : State :=
  {| selectedFile := None; isLoading := false; hasOutput := false;
     outputData := None |}.

Definition setSelectedFile (v : option File) (st : State) : State :=
  {| selectedFile := v; isLoading := isLoading st;
     hasOutput := hasOutput st; outputData := outputData st |}.

Definition setIsLoading (v : bool) (st : State) : State :=
  {| selectedFile := selectedFile st; isLoading := v;
     hasOutput := hasOutput st; outputData := outputData st |}.

Definition setHasOutput (v : bool) (st : State) : State :=
  {| selectedFile := selectedFile st; isLoading := isLoading st;
     hasOutput := v; outputData := outputData st |}.

Definition setOutputData (v : option Api.ParseResponse) (st : State) : State :=
  {| selectedFile := selectedFile st; isLoading := isLoading st;
     hasOutput := hasOutput st; outputData := v |}.

(** [handleFileSelect]. *)
Definition handleFileSelect (file : File) (st : State) : State :=
  let st := setSelectedFile (Some file) st in
  let st := setHasOutput false st in
  st.

(** [handleParse], up to the [await]: the three updates before the call. *)
Definition handleParse_start (st : State) : State :=
  let st := setIsLoading true st in
  let st := setHasOutput false st in
  let st := setOutputData None st in
  st.

(** [handleParse], from the [await] on: the [try] continuation when the call
    resolved, the [catch] block when it rejected, then [finally].  The value
    the call resolves to is the parsed body of the answer, which nothing
    checks: it is [None] when that body is the JSON [null] and the body
    otherwise, and [setOutputData(result)] stores it as it comes. *)
Definition handleParse_settled (outcome : result (option Api.ParseResponse))
  (st : State) (w : Browser) : State * Browser :=
  let '(st, w) :=
    match outcome with
    | Ok result =>
      let st := setOutputData result st in
      let st := setHasOutput true st in
      (st, toast {| toast_title := lit "Success!";
                    toast_description := lit "Document parsed successfully";
                    toast_variant := None |} w)
    | Throw error =>
      let w := console_error (lit "Parse error:") error w in
      (st, toast {| toast_title := lit "Parse Error";
                    toast_description :=
                      match error with
                      | ErrorObject _ message => message
                      | NonError => lit "Failed to parse document"
                      end;
                    toast_variant := Some (lit "destructive") |} w)
    end in
  (setIsLoading false st, w).

(** [handleParse] run without interruption.  [parseDocument] is
    [apiService.parseDocument]; it resolves to the parsed body, [null]
    included. *)
Definition handleParse
  (parseDocument : File -> jsstring -> Browser ->
                   Browser * result (option Api.ParseResponse))
  (file : File) (promptId : jsstring) (st : State) (w : Browser)
  : State * Browser :=
  let st := handleParse_start st in
  let '(w, outcome) := parseDocument file promptId w in
  handleParse_settled outcome st w.

(** File selections that arrive one after the other, for instance while a
    parse is in flight. *)
Definition select_all (files : list File) (st : State) : State :=
  foldl (fun st file => handleFileSelect file st) st files.

(** The props handed to the output panel: [outputData?.data || null] and
    [outputData?.metadata || null]. *)
Definition panel_outputData (st : State) : option Api.ParseData :=
  Api.data <$> outputData st.

Definition panel_metadata (st : State) : option Api.ParseMetadata :=
  Api.metadata <$> outputData st.

End OCRInterface.
End OCRInterface.

(* --------------------------------------------------------------------- *)
(** ** components/Sidebar.tsx                                             *)
(* --------------------------------------------------------------------- *)

Module Sidebar.
Section Sidebar.
Context `{Engine}.

Record State := {
  selectedFile : option File;
  selectedPrompt : jsstring;
  prompts : list Api.Prompt;
  loadingPrompts : bool
}.

Definition initial : State :=
  {| selectedFile := None; selectedPrompt := []; prompts := [];
     loadingPrompts := true |}.

Definition setSelectedFile (v : option File) (st : State) : State :=
  {| selectedFile := v; selectedPrompt := selectedPrompt st;
     prompts := prompts st; loadingPrompts := loadingPrompts st |}.

Definition setSelectedPrompt (v : jsstring) (st : State) : State :=
  {| selectedFile := selectedFile st; selectedPrompt := v;
     prompts := prompts st; loadingPrompts := loadingPrompts st |}.

Definition setPrompts (v : list Api.Prompt) (st : State) : State :=
  {| selectedFile := selectedFile st; selectedPrompt := selectedPrompt st;
     prompts := v; loadingPrompts := loadingPrompts st |}.

Definition setLoadingPrompts (v : bool) (st : State) : State :=
  {| selectedFile := selectedFile st; selectedPrompt := selectedPrompt st;
     prompts := prompts st; loadingPrompts := v |}.

(** A call of one of the callbacks the parent passed in. *)
Inductive callback :=
| onFileSelect (file : File)
| onParse (file : File) (promptId : jsstring).

(** [handleFileUpload]: [event.target.files?.[0]], if any. *)
Definition handleFileUpload (files : list File) (st : State)
  : State * list callback :=
  match head files with
  | Some file => (setSelectedFile (Some file) st, [onFileSelect file])
  | None => (st, [])
  end.

(** The mock file of [handleExampleSelect]. *)
Definition mockFile : File :=
  let bytes := utf8_encode (lit "mock content") in
  {| file_name := lit "Amir_Abdallah_Resume.pdf";
     file_size := N.of_nat (length bytes);
     file_type := lit "application/pdf";
     file_bytes := bytes |}.

Definition handleExampleSelect (st : State) : State * list callback :=
  (setSelectedFile (Some mockFile) st, [onFileSelect mockFile]).

(** The [loadPrompts] effect once [getPrompts] has settled, for the two
    outcomes its declared type [Promise<Prompt[]>] allows: it resolved to a
    list of prompts, or it rejected. *)
Definition loadPrompts_settled (outcome : result (list Api.Prompt))
  (st : State) (w : Browser) : State * Browser :=
  let '(st, w) :=
    match outcome with
    | Ok fetchedPrompts =>
      let st := setPrompts fetchedPrompts st in
      (match fetchedPrompts with
       | first :: _ => setSelectedPrompt (Api.id first) st
       | [] => st
       end, w)
    | Throw error =>
      let w := console_error (lit "Failed to load prompts:") error w in
      (st, toast {| toast_title := lit "Error";
                    toast_description :=
                      lit "Failed to load prompts. Please try again.";
                    toast_variant := Some (lit "destructive") |} w)
    end in
  (setLoadingPrompts false st, w).

(** [getSelectedPromptDescription]. *)
Definition getSelectedPromptDescription (st : State) : jsstring :=
  match List.find (fun p => bool_decide (Api.id p = selectedPrompt st))
                  (prompts st) with
  | Some prompt => Api.description prompt
  | None => lit "Select a prompt to see its description."
  end.

(** [handleParseClick]: both [selectedFile] and [selectedPrompt] must be
    truthy. *)
Definition handleParseClick (st : State) : list callback :=
  match selectedFile st with
  | Some file =>
    if negb (bool_decide (selectedPrompt st = []))
    then [onParse file (selectedPrompt st)]
    else []
  | None => []
  end.

(** The [disabled] attribute of the Parse button:
    [!selectedFile || !selectedPrompt || isLoading || loadingPrompts]. *)
Definition parse_disabled (st : State) (isLoading : bool) : bool :=
  negb (bool_decide (is_Some (selectedFile st)))
  || bool_decide (selectedPrompt st = [])
  || isLoading || loadingPrompts st.

(** A click on the Parse button: a disabled button fires no handler. *)
Definition click_parse (st : State) (isLoading : bool) : list callback :=
  if parse_disabled st isLoading then [] else handleParseClick st.

End Sidebar.
End Sidebar.

(* --------------------------------------------------------------------- *)
(** ** components/OutputPanel.tsx                                         *)
(* --------------------------------------------------------------------- *)

Module OutputPanel.

(** *** The regular expressions of [formatMarkdownForDisplay]

    [String.prototype.replace] with a global pattern scans the subject from
    left to right: at each position it tries the pattern; on a match it emits
    the expanded replacement and resumes right after the match, otherwise it
    copies one code unit and moves on.  None of the patterns below matches
    the empty string. *)

(** The code units that [.] refuses and next to which [^] and [$] hold under
    the [m] flag: LF, CR, U+2028 and U+2029. *)
Definition LineTerminator (c : code_unit) : bool :=
  (c =? 10) || (c =? 13) || (c =? 8232) || (c =? 8233).

Section Replace.

(** [exec prev s]: the match of the pattern at the head of [s], where [prev]
    is the code unit just before it (none at the start of the subject), as
    the number of code units matched and the expanded replacement. *)
Variable exec : option code_unit -> jsstring -> option (nat * jsstring).

(** [skip] counts the code units of the current match still to pass over. *)
Fixpoint replace_from (skip : nat) (prev : option code_unit) (s : jsstring)
  : jsstring :=
  match s with
  | [] => []
  | c :: rest =>
    match skip with
    | S skip' => replace_from skip' (Some c) rest
    | O =>
      match exec prev s with
      | Some (matched, replacement) =>
        replacement ++ replace_from (Nat.pred matched) (Some c) rest
      | None => c :: replace_from O (Some c) rest
      end
    end
  end.

Definition replace (s : jsstring) : jsstring := replace_from O None s.

End Replace.

(** [/\n/g]: every newline. *)
Definition exec_newline (replacement : jsstring) (prev : option code_unit)
  (s : jsstring) : option (nat * jsstring) :=
  match s with
  | c :: _ => if c =? 10 then Some (1%nat, replacement) else None
  | [] => None
  end.

(** The lazy group [(.*?)] followed by the literal [close]: the shortest run
    of code units other than line terminators after which [close] follows;
    the result is what the group captures. *)
Fixpoint lazy_dots_until (close : jsstring) (s : jsstring) : option jsstring :=
  if startsWith s close then Some []
  else
    match s with
    | [] => None
    | c :: rest =>
      if LineTerminator c then None
      else cons c <$> lazy_dots_until close rest
    end.

(** [/open(.*?)close/g] with the replacement [before$1after]. *)
Definition exec_delimited (open close before after : jsstring)
  (prev : option code_unit) (s : jsstring) : option (nat * jsstring) :=
  if startsWith s open then
    match lazy_dots_until close (drop (length open) s) with
    | Some group =>
      Some ((length open + length group + length close)%nat,
            before ++ group ++ after)
    | None => None
    end
  else None.

(** [^] under the [m] flag. *)
Definition at_line_start (prev : option code_unit) : bool :=
  match prev with
  | None => true
  | Some c => LineTerminator c
  end.

(** The greedy group [(.*$)] under the [m] flag: the rest of the line. *)
Fixpoint rest_of_line (s : jsstring) : jsstring :=
  match s with
  | [] => []
  | c :: rest => if LineTerminator c then [] else c :: rest_of_line rest
  end.

(** [/^marker(.*$)/gm] with the replacement [before$1after]. *)
Definition exec_heading (marker before after : jsstring)
  (prev : option code_unit) (s : jsstring) : option (nat * jsstring) :=
  if at_line_start prev && startsWith s marker then
    let group := rest_of_line (drop (length marker) s) in
    Some ((length marker + length group)%nat, before ++ group ++ after)
  else None.

(** The six substitutions, in the order of the source. *)
Definition newline_to_br : jsstring -> jsstring :=
  replace (exec_newline (lit "<br/>")).
Definition bold : jsstring -> jsstring :=
  replace (exec_delimited (lit "**") (lit "**")
                          (lit "<strong>") (lit "</strong>")).
Definition italic : jsstring -> jsstring :=
  replace (exec_delimited (lit "*") (lit "*") (lit "<em>") (lit "</em>")).
Definition heading1 : jsstring -> jsstring :=
  replace (exec_heading (lit "# ") (lit "<h1>") (lit "</h1>")).
Definition heading2 : jsstring -> jsstring :=
  replace (exec_heading (lit "## ") (lit "<h2>") (lit "</h2>")).
Definition heading3 : jsstring -> jsstring :=
  replace (exec_heading (lit "### ") (lit "<h3>") (lit "</h3>")).

(** [formatMarkdownForDisplay]. *)
Definition formatMarkdownForDisplay (markdown : jsstring) : jsstring :=
  heading3 (heading2 (heading1 (italic (bold (newline_to_br markdown))))).

(** *** The component *)

Definition sampleMarkdown : jsstring := lit
"# AMIR ABDALLAH

**Contact Information**
- Email: amir.abdallah@email.com
- Phone: +216 XX XXX XXX
- Location: Sfax, Tunisia

## EDUCATION

**National School of Electronics and Telecommunications of Sfax**
*Engineering Degree in Telecommunications* | 2019 - 2022

## EXPERIENCE

### Proxym AI Software Engineering Intern
*June 2022 - August 2022*
- Developed machine learning models for document processing
- Implemented OCR solutions using Python and TensorFlow
- Collaborated with cross-functional teams on AI projects

### Junior Developer - TechCorp
*September 2022 - Present*
- Full-stack web development using React and Node.js
- Database design and optimization with PostgreSQL
- API development and integration

## SKILLS

**Programming Languages:** Python, JavaScript, TypeScript, Java
**Frameworks:** React, Node.js, Express, Django
**Databases:** PostgreSQL, MongoDB, Redis
**Tools:** Git, Docker, AWS, Jenkins

## PROJECTS

### Document Processing System
Built an OCR system for automated document analysis
*Technologies: Python, OpenCV, Tesseract*

### E-commerce Platform
Full-stack application with payment integration
*Technologies: React, Node.js, Stripe API*".

Definition sampleRawText : jsstring := lit
"AMIR ABDALLAH

Email: amir.abdallah@email.com | Phone: +216 XX XXX XXX
Location: Sfax, Tunisia

EDUCATION

National School of Electronics and Telecommunications of Sfax
Engineering Degree in Telecommunications
2019 - 2022

EXPERIENCE

Proxym AI Software Engineering Intern
June 2022 - August 2022
• Developed machine learning models for document processing
• Implemented OCR solutions using Python and TensorFlow
• Collaborated with cross-functional teams on AI projects

Junior Developer - TechCorp
September 2022 - Present
• Full-stack web development using React and Node.js
• Database design and optimization with PostgreSQL
• API development and integration

SKILLS

Programming Languages: Python, JavaScript, TypeScript, Java
Frameworks: React, Node.js, Express, Django
Databases: PostgreSQL, MongoDB, Redis
Tools: Git, Docker, AWS, Jenkins

PROJECTS

Document Processing System
• Built an OCR system for automated document analysis
• Technologies: Python, OpenCV, Tesseract

E-commerce Platform
• Full-stack application with payment integration
• Technologies: React, Node.js, Stripe API".

Section Component.
Context `{Engine}.

Record Props := {
  hasOutput : bool;
  isLoading : bool;
  outputData : option Api.ParseData;
  metadata : option Api.ParseMetadata
}.

(** The one state cell, [activeTab]; it starts as ["markdown"] and the tab
    triggers set it to ["markdown"] or ["raw"]. *)
Definition State := jsstring.
Definition initial : State := lit "markdown".

(** [a || b] on strings: [a] unless it is empty (or missing). *)
Definition or_string (a : option jsstring) (b : jsstring) : jsstring :=
  match a with
  | Some ((_ :: _) as s) => s
  | _ => b
  end.

(** [outputData?.markdown || sampleMarkdown] and
    [outputData?.rawText || sampleRawText]. *)
Definition markdownContent (props : Props) : jsstring :=
  or_string (Api.markdown <$> outputData props) sampleMarkdown.

Definition rawTextContent (props : Props) : jsstring :=
  or_string (Api.rawText <$> outputData props) sampleRawText.

(** [handleCopy]. *)
Definition handleCopy (content : jsstring) (w : Browser) : Browser :=
  let w := writeText content w in
  toast {| toast_title := lit "Copied to clipboard";
           toast_description := lit "Content has been copied successfully";
           toast_variant := None |} w.

(** [handleDownload]: a blob, an object URL for it, a click on a temporary
    download link, and the URL is revoked. *)
Definition handleDownload (content filename : jsstring) (w : Browser)
  : Browser :=
  let blob := new_Blob [content] (lit "text/plain") in
  let '(url, w) := createObjectURL blob w in
  let w := click_download_link url filename w in
  revokeObjectURL url w.

(** The [onClick] of the Copy button. *)
Definition click_copy (props : Props) (activeTab : State) (w : Browser)
  : Browser :=
  let content :=
    if bool_decide (activeTab = lit "markdown")
    then markdownContent props else rawTextContent props in
  handleCopy content w.

(** The [onClick] of the Download button. *)
Definition click_download (props : Props) (activeTab : State) (w : Browser)
  : Browser :=
  let content :=
    if bool_decide (activeTab = lit "markdown")
    then markdownContent props else rawTextContent props in
  let filename :=
    lit "output." ++
    (if bool_decide (activeTab = lit "markdown") then lit "md" else lit "txt")
  in
  handleDownload content filename w.

(** What the component renders: the invitation to parse, or the card whose
    body is the processing notice or the two tab panes (the markdown pane
    holds HTML, the raw pane text) with the metadata summary. *)
Inductive Body :=
| Processing
| Panes (markdown_html : jsstring) (raw_text : jsstring)
        (summary : option Api.ParseMetadata).

Inductive View :=
| NoOutput
| Card (activeTab : jsstring) (body : Body).

Definition render (props : Props) (activeTab : State) : View :=
  if negb (hasOutput props) && negb (isLoading props) then NoOutput
  else
    Card activeTab
      (if isLoading props then Processing
       else Panes (formatMarkdownForDisplay (markdownContent props))
                  (rawTextContent props)
                  (metadata props)).

End Component.
End OutputPanel.

(* --------------------------------------------------------------------- *)
(** ** components/DocumentPreview.tsx                                     *)
(* --------------------------------------------------------------------- *)

Module DocumentPreview.

Definition sampleContent : jsstring := lit
"
    AMIR ABDALLAH
    
    Email: amir.abdallah@email.com | Phone: +216 XX XXX XXX
    Location: Sfax, Tunisia
    
    EDUCATION
    
    National School of Electronics and Telecommunications of Sfax
    Engineering Degree in Telecommunications
    2019 - 2022
    
    EXPERIENCE
    
    Proxym AI Software Engineering Intern
    June 2022 - August 2022
    • Developed machine learning models for document processing
    • Implemented OCR solutions using Python and TensorFlow
    • Collaborated with cross-functional teams on AI projects
    
    Junior Developer - TechCorp
    September 2022 - Present
    • Full-stack web development using React and Node.js
    • Database design and optimization with PostgreSQL
    • API development and integration
    
    SKILLS
    
    Programming Languages: Python, JavaScript, TypeScript, Java
    Frameworks: React, Node.js, Express, Django
    Databases: PostgreSQL, MongoDB, Redis
    Tools: Git, Docker, AWS, Jenkins
    
    PROJECTS
    
    Document Processing System
    • Built an OCR system for automated document analysis
    • Technologies: Python, OpenCV, Tesseract
    
    E-commerce Platform
    • Full-stack application with payment integration
    • Technologies: React, Node.js, Stripe API
  ".

Record Props := {
  file : option File;
  isLoading : bool
}.

(** The two [useState] cells. *)
Record State := {
  preview : option jsstring;
  fileURL : option ObjectURL
}.

Definition initial : State := {| preview := None; fileURL := None |}.

Definition setPreview (v : option jsstring) (st : State) : State :=
  {| preview := v; fileURL := fileURL st |}.

Definition setFileURL (v : option ObjectURL) (st : State) : State :=
  {| preview := preview st; fileURL := v |}.

(** What one run of the effect leaves behind besides the state: the cleanup
    function it returned (the closure that revokes [url], if any) and the
    [FileReader] it started (on which file, if any). *)
Record EffectRun := {
  run_state : State;
  run_browser : Browser;
  run_cleanup : option ObjectURL;
  run_reader : option File
}.

(** The body of the [useEffect]. *)
Definition effect (file : option File) (st : State) (w : Browser)
  : EffectRun :=
  match file with
  | None =>
    let st := setPreview None st in
    let st := setFileURL None st in
    {| run_state := st; run_browser := w;
       run_cleanup := None; run_reader := None |}
  | Some f =>
    if bool_decide (file_type f = lit "application/pdf") then
      let '(url, w) := createObjectURL (File_blob f) w in
      let st := setFileURL (Some url) st in
      let st := setPreview (Some (lit "PDF Document: " ++ file_name f)) st in
      {| run_state := st; run_browser := w;
         run_cleanup := Some url; run_reader := None |}
    else if startsWith (file_type f) (lit "image/") then
      let st := setFileURL None st in
      {| run_state := st; run_browser := w;
         run_cleanup := None; run_reader := Some f |}
    else
      let st := setPreview (Some (lit "File: " ++ file_name f)) st in
      let st := setFileURL None st in
      {| run_state := st; run_browser := w;
         run_cleanup := None; run_reader := None |}
  end.

(** [reader.onload]: the data URL the reader produced becomes the preview. *)
Definition reader_onload (result : jsstring) (st : State) : State :=
  setPreview (Some result) st.

(** [(size / 1024).toFixed(1)]: the quotient is exact in binary floating
    point, and [toFixed] rounds it to one decimal, a tie upwards. *)
Definition size_kb (size : N) : jsstring :=
  let tenths := (size * 10 + 512) / 1024 in
  decimal (tenths / 10) ++ lit "." ++ decimal (tenths mod 10).

(** What the component renders: the invitation to upload, or the card with
    its header line and one of four bodies. *)
Inductive Body :=
| LoadingDocument
| EmbedPDF (documentURL : ObjectURL)
| Image (src : jsstring)
| Text (content : jsstring).

Inductive View :=
| NoFile
| Card (header : jsstring) (body : Body).

(** The innermost alternative of the render: the text block shown when
    neither the PDF viewer nor the image applies. *)
Definition fallback_text (f : File) : jsstring :=
  if bool_decide (file_type f = lit "application/pdf") then
    lit "📄 PDF Document Preview

File: " ++ file_name f ++ lit "
Size: " ++ size_kb (file_size f) ++ lit " KB

Loading PDF viewer..."
  else sampleContent.

Definition render (props : Props) (st : State) : View :=
  match file props with
  | None => NoFile
  | Some f =>
    Card (file_name f ++ lit " • " ++ size_kb (file_size f) ++ lit " KB")
      (if isLoading props then LoadingDocument
       else
         match (if bool_decide (file_type f = lit "application/pdf")
                then fileURL st else None) with
         | Some url => EmbedPDF url
         | None =>
           match (if startsWith (file_type f) (lit "image/")
                  then preview st else None) with
           | Some p =>
             if negb (bool_decide (p = [])) && startsWith p (lit "data:")
             then Image p
             else Text (fallback_text f)
           | None => Text (fallback_text f)
           end
         end)
  end.

(** *** The component under React

    React keeps, for a mounted component, its state, the dependency of the
    last effect run ([file]) and the cleanup function that run returned.
    After a render in which the dependency changed it calls the cleanup and
    then the effect again; at unmount it calls the cleanup. *)

Record Instance := {
  state : State;
  dependency : option File;
  cleanup : option ObjectURL;
  readers : list File
}.

(** The [load] event of the oldest reader still running: its [onload]
    handler stores the data URL it produced. *)
Definition reader_loaded (result : jsstring) (inst : Instance) : Instance :=
  {| state := reader_onload result (state inst);
     dependency := dependency inst;
     cleanup := cleanup inst;
     readers := tail (readers inst) |}.

Section React.

(** [Object.is] on the dependency: are the old and the new [file] the same
    object (or both [null])? *)
Variable same_file : option File -> option File -> bool.

Definition call_cleanup (c : option ObjectURL) (w : Browser) : Browser :=
  match c with
  | Some url => revokeObjectURL url w
  | None => w
  end.

Definition after_effect (file : option File) (inst : Instance)
  (run : EffectRun) : Instance :=
  {| state := run_state run;
     dependency := file;
     cleanup := run_cleanup run;
     readers := readers inst ++ option_list (run_reader run) |}.

(** First render. *)
Definition mount (file : option File) (w : Browser) : Instance * Browser :=
  let run := effect file initial w in
  (after_effect file
     {| state := initial; dependency := None; cleanup := None;
        readers := [] |} run,
   run_browser run).

(** A later render with the prop [file].  When the dependency changed: the
    browser after the old cleanup ran, then the instance and the browser
    after the effect ran again.  When it is the same object nothing runs. *)
Definition update (file : option File) (inst : Instance) (w : Browser)
  : Browser * (Instance * Browser) :=
  if same_file (dependency inst) file then (w, (inst, w))
  else
    let w1 := call_cleanup (cleanup inst) w in
    let run := effect file (state inst) w1 in
    (w1, (after_effect file inst run, run_browser run)).

(** The component is torn down. *)
Definition unmount (inst : Instance) (w : Browser) : Browser :=
  call_cleanup (cleanup inst) w.

(** [N] selections in a row after the first render, with every browser state
    passed through on the way (oldest first). *)
Fixpoint selections (files : list (option File)) (inst : Instance)
  (w : Browser) : list Browser * (Instance * Browser) :=
  match files with
  | [] => ([], (inst, w))
  | f :: rest =>
    let '(w1, (inst', w')) := update f inst w in
    let '(seen, final) := selections rest inst' w' in
    (w1 :: w' :: seen, final)
  end.

(** A whole life of the component: mounted on [first], re-rendered with each
    of [files], then torn down.  The result lists every browser state passed
    through, the last one being the state after the teardown. *)
Definition lifetime (first : option File) (files : list (option File))
  (w : Browser) : list Browser :=
  let '(inst, w0) := mount first w in
  let '(seen, (inst', w')) := selections files inst w0 in
  w0 :: seen ++ [unmount inst' w'].

End React.
End DocumentPreview.

(* --------------------------------------------------------------------- *)
(** ** The assembled interface                                            *)
(* --------------------------------------------------------------------- *)

(** [OCRInterface] renders the sidebar, the preview and the output panel from
    its own state and hands [handleFileSelect] and [handleParse] to the
    sidebar.  The module follows that wiring: the state of the two stateful
    components that exchange calls, the parse calls that have not settled
    yet, and the browser. *)
Module App.
Section App.
Context `{Engine}.

Record State := {
  sidebar : Sidebar.State;
  main : OCRInterface.State;
  in_flight : list (File * jsstring);
  browser : Browser
}.

(** After the first render: the [loadPrompts] effect has sent its request. *)
Definition initial : State :=
  {| sidebar := Sidebar.initial; main := OCRInterface.initial;
     in_flight := [];
     browser := send Api.getPrompts_request initial_browser |}.

(** A callback of the sidebar runs the handler of the orchestrator:
    [onFileSelect={handleFileSelect}] and [onParse={handleParse}], the latter
    up to its [await] (the request is on the wire, the call is in flight). *)
Definition deliver (app : State) (c : Sidebar.callback) : State :=
  match c with
  | Sidebar.onFileSelect file =>
    {| sidebar := sidebar app;
       main := OCRInterface.handleFileSelect file (main app);
       in_flight := in_flight app; browser := browser app |}
  | Sidebar.onParse file promptId =>
    {| sidebar := sidebar app;
       main := OCRInterface.handleParse_start (main app);
       in_flight := in_flight app ++ [(file, promptId)];
       browser := send (Api.parseDocument_request file promptId)
                       (browser app) |}
  end.

Definition after_sidebar (app : State)
  (r : Sidebar.State * list Sidebar.callback) : State :=
  foldl deliver
    {| sidebar := r.1; main := main app; in_flight := in_flight app;
       browser := browser app |}
    r.2.

(** What can happen to the interface. *)
Inductive event :=
| FilesChosen (files : list File)
| ExampleChosen
| FileRemoved
| PromptChosen (value : jsstring)
| PromptsSettled (outcome : result (list Api.Prompt))
| ParseClicked
| ParseSettled (outcome : result (option Api.ParseResponse)).

Definition step (app : State) (e : event) : State :=
  match e with
  | FilesChosen files =>
    after_sidebar app (Sidebar.handleFileUpload files (sidebar app))
  | ExampleChosen =>
    after_sidebar app (Sidebar.handleExampleSelect (sidebar app))
  | FileRemoved =>
    (* the trash button: [setSelectedFile(null)], no callback *)
    after_sidebar app (Sidebar.setSelectedFile None (sidebar app), [])
  | PromptChosen value =>
    (* the [Select] is disabled while the prompts load and only offers the
       ids of the loaded prompts *)
    if Sidebar.loadingPrompts (sidebar app)
       || negb (bool_decide (value ∈ Api.id <$> Sidebar.prompts (sidebar app)))
    then app
    else after_sidebar app (Sidebar.setSelectedPrompt value (sidebar app), [])
  | PromptsSettled outcome =>
    let '(sb, w) :=
      Sidebar.loadPrompts_settled outcome (sidebar app) (browser app) in
    {| sidebar := sb; main := main app; in_flight := in_flight app;
       browser := w |}
  | ParseClicked =>
    after_sidebar app
      (sidebar app,
       Sidebar.click_parse (sidebar app) (OCRInterface.isLoading (main app)))
  | ParseSettled outcome =>
    match in_flight app with
    | [] => app
    | _ :: rest =>
      let '(st, w) :=
        OCRInterface.handleParse_settled outcome (main app) (browser app) in
      {| sidebar := sidebar app; main := st; in_flight := rest;
         browser := w |}
    end
  end.

Definition run (events : list event) (app : State) : State :=
  foldl step app events.

(** The props the orchestrator passes down. *)
Definition output_props (app : State) : OutputPanel.Props :=
  {| OutputPanel.hasOutput := OCRInterface.hasOutput (main app);
     OutputPanel.isLoading := OCRInterface.isLoading (main app);
     OutputPanel.outputData := OCRInterface.panel_outputData (main app);
     OutputPanel.metadata := OCRInterface.panel_metadata (main app) |}.

Definition preview_props (app : State) : DocumentPreview.Props :=
  {| DocumentPreview.file := OCRInterface.selectedFile (main app);
     DocumentPreview.isLoading := OCRInterface.isLoading (main app) |}.

Definition parse_button_disabled (app : State) : bool :=
  Sidebar.parse_disabled (sidebar app) (OCRInterface.isLoading (main app)).

(** [apiService.parseDocument] as [handleParse] calls it.  The type assertion
    of [handleResponse<ParseResponse>] checks and converts nothing: a body
    that is [null] reaches the caller as [null]; [as_ParseResponse] is the
    view of any other body at the declared type. *)
Definition parseDocument (as_ParseResponse : value -> Api.ParseResponse)
  (net : Request -> result Api.Response)
  (file : File) (promptId : jsstring) (w : Browser)
  : Browser * result (option Api.ParseResponse) :=
  let '(w, r) := Api.parseDocument net file promptId w in
  (w, match r with
      | Ok VNull | Ok VUndefined => Ok None
      | Ok body => Ok (Some (as_ParseResponse body))
      | Throw e => Throw e
      end).

(** The events a user can cause (everything but the answer to the prompts
    request). *)
Definition user_event (e : event) : bool :=
  match e with
  | PromptsSettled _ => false
  | _ => true
  end.

End App.
End App.

(* --------------------------------------------------------------------- *)
(** ** Vocabulary of the properties                                       *)
(* --------------------------------------------------------------------- *)

Module LineBreaks.

(** The line-break tag and the newline character. *)
Definition BR : jsstring := lit "<br/>".
Definition LF : jsstring := [10].

(** [holds needle n s]: [s] holds [n] occurrences of [needle] that do not
    overlap. *)
Inductive holds (needle : jsstring) : nat -> jsstring -> Prop :=
| holds_none s : holds needle 0 s
| holds_more n a s :
    holds needle n s -> holds needle (S n) (a ++ needle ++ s).

(** The code units of the tag. *)
Definition protected (c : code_unit) : bool := existsb (N.eqb c) BR.

Definition unprotected_word (u : jsstring) : bool :=
  forallb (fun c => negb (protected c)) u.

(** [edit s s']: [s'] comes from [s] by rewriting code units that are not
    part of the tag into arbitrary words, and by adding a word at the very
    end; every other code unit stays in place. *)
Inductive edit : jsstring -> jsstring -> Prop :=
| edit_end w : edit [] w
| edit_keep c s s' : edit s s' -> edit (c :: s) (c :: s')
| edit_subst c w s s' :
    protected c = false -> edit s s' -> edit (c :: s) (w ++ s').

(** A pattern whose every match rewrites the subject by an [edit]. *)
Definition edits (exec : option code_unit -> jsstring -> option (nat * jsstring))
  : Prop :=
  forall prev s n out,
    exec prev s = Some (n, out) ->
    (0 < n)%nat /\ forall y, edit (drop n s) y -> edit s (out ++ y).

(** The code units of the tag after its first one. *)
Definition inner (c : code_unit) : bool := existsb (N.eqb c) (tail BR).

(** A word that, put anywhere, neither completes nor starts a tag. *)
Definition inert (w : jsstring) : Prop :=
  forall a t,
    occurrences BR (a ++ w ++ t)
      = (occurrences BR a + occurrences BR t)%nat.

(** A pattern whose every match leaves the number of tags in the subject as
    it was, whatever precedes the match. *)
Definition keeps_count
  (exec : option code_unit -> jsstring -> option (nat * jsstring)) : Prop :=
  forall prev s n out,
    exec prev s = Some (n, out) ->
    (0 < n)%nat
    /\ forall a,
         occurrences BR (a ++ out ++ drop n s) = occurrences BR (a ++ s).

(** No code unit of [s] is [c]. *)
Definition free_of (c : code_unit) (s : jsstring) : bool :=
  forallb (fun d => negb (d =? c)) s.

(** A pattern whose replacements bring no [c] into a subject free of it. *)
Definition keeps_out (c : code_unit)
  (exec : option code_unit -> jsstring -> option (nat * jsstring)) : Prop :=
  forall prev s n out,
    free_of c s = true -> exec prev s = Some (n, out) ->
    free_of c out = true.

End LineBreaks.

Module OutputContent.
Section OutputContent.
Context `{Engine}.

(** The file a download saves: the given name, the UTF-8 bytes of the
    content, type [text/plain]. *)
Definition text_file (filename content : jsstring) : jsstring * Blob :=
  (filename,
   {| blob_bytes := utf8_encode content; blob_type := lit "text/plain" |}).

(** The panel has no parse result, or the given field of it is the empty
    string. *)
Definition lacks (field : Api.ParseData -> jsstring)
  (props : OutputPanel.Props) : Prop :=
  match OutputPanel.outputData props with
  | None => True
  | Some d => field d = []
  end.

End OutputContent.
End OutputContent.

Module AppInvariant.
Section AppInvariant.
Context `{Engine}.

(** What every state of the assembled interface satisfies: at most one parse
    call is in flight and [isLoading] tells whether one is; output is only
    flagged when nothing is loading; the file the sidebar holds is the file
    the orchestrator holds. *)
Definition consistent (app : App.State) : Prop :=
  (length (App.in_flight app) <= 1)%nat
  /\ (OCRInterface.isLoading (App.main app) = true
      <-> App.in_flight app <> [])
  /\ (OCRInterface.hasOutput (App.main app) = true ->
      OCRInterface.isLoading (App.main app) = false)
  /\ (forall f,
        Sidebar.selectedFile (App.sidebar app) = Some f ->
        OCRInterface.selectedFile (App.main app) = Some f).

End AppInvariant.
End AppInvariant.

Module PreviewView.

(** The PDF viewer is fed correctly: when the effect last ran for a PDF, the
    state holds an object URL that the pending cleanup will revoke and that
    the store maps to the content of that file; otherwise there is neither a
    URL nor a cleanup. *)
Definition viewer_ready (inst : DocumentPreview.Instance) (w : Browser)
  : Prop :=
  match DocumentPreview.dependency inst with
  | Some f =>
    if bool_decide (file_type f = lit "application/pdf") then
      exists url,
        DocumentPreview.fileURL (DocumentPreview.state inst) = Some url
        /\ DocumentPreview.cleanup inst = Some url
        /\ object_urls w !! url = Some (File_blob f)
    else
      DocumentPreview.fileURL (DocumentPreview.state inst) = None
      /\ DocumentPreview.cleanup inst = None
  | None =>
    DocumentPreview.fileURL (DocumentPreview.state inst) = None
    /\ DocumentPreview.cleanup inst = None
  end.

End PreviewView.

Module Lines.

(** [s] has no line terminator. *)
Definition one_line (s : jsstring) : bool :=
  forallb (fun c => negb (OutputPanel.LineTerminator c)) s.

(** The asterisk and the hash sign. *)
Definition STAR : code_unit := 42.
Definition HASH : code_unit := 35.

End Lines.

Module PreviewResources.

(** The counter of the store is ahead of every URL of [base]: a URL made
    from now on is not one of them. *)
Definition ahead (base : gmap N Blob) (w : Browser) : Prop :=
  forall url, next_object_url w <= url -> base !! url = None.

(** The store of [w] is [base] with at most one more URL. *)
Definition at_most_one_more (base : gmap N Blob) (w : Browser) : Prop :=
  object_urls w = base
  \/ exists url blob,
       base !! url = None /\ object_urls w = <[url := blob]> base.

(** What holds between a mounted preview and the browser: the store is
    [base] plus exactly the URL that the pending cleanup will revoke. *)
Definition owns (base : gmap N Blob) (cleanup : option ObjectURL)
  (w : Browser) : Prop :=
  ahead base w
  /\ match cleanup with
     | None => object_urls w = base
     | Some url =>
       base !! url = None
       /\ exists blob, object_urls w = <[url := blob]> base
     end.

End PreviewResources.

(* --------------------------------------------------------------------- *)
(** ** Concrete inputs                                                    *)
(* --------------------------------------------------------------------- *)

(** A plain text file and a PDF. *)
Definition notes_txt : File :=
  {| file_name := lit "notes.txt"; file_size := 5;
     file_type := lit "text/plain";
     file_bytes := utf8_encode (lit "hello") |}.

Definition report_pdf : File :=
  {| file_name := lit "report.pdf"; file_size := 2048;
     file_type := lit "application/pdf";
     file_bytes := utf8_encode (lit "%PDF-1.7") |}.

(** Every selection hands over a new [File] object: two files are never the
    same object, [null] is [null]. *)
Definition fresh_objects (previous next : option File) : bool :=
  match previous, next with
  | None, None => true
  | _, _ => false
  end.

(** An engine to run the definitions on concrete inputs: integer numbers
    printed in decimal. *)
#[global] Instance integer_engine : Engine := {|
  number := N;
  number_falsy := fun n => n =? 0;
  Number_toString := decimal;
  null_property_message :=
    fun p => lit "Cannot read properties of null (reading '"
             ++ p ++ lit "')";
  to_primitive_message := lit "Cannot convert object to primitive value";
  VITE_API_BASE_URL := None
|}.

(** A 422 response with the given parsed body. *)
Definition unprocessable (body : value) : Api.Response :=
  {| Api.status := 422; Api.statusText := lit "Unprocessable Entity";
     Api.json_body := Ok body |}.

(** A parse result with a title as markdown and no raw text at all, and one
    with both. *)
Definition blank_scan : OutputPanel.Props :=
  {| OutputPanel.hasOutput := true; OutputPanel.isLoading := false;
     OutputPanel.outputData :=
       Some {| Api.markdown := lit "# Scan"; Api.rawText := [] |};
     OutputPanel.metadata := None |}.

Definition invoice_scan : OutputPanel.Props :=
  {| OutputPanel.hasOutput := true; OutputPanel.isLoading := false;
     OutputPanel.outputData :=
       Some {| Api.markdown := lit "# Invoice";
               Api.rawText := lit "Invoice" |};
     OutputPanel.metadata := None |}.

(** Two images. *)
Definition scan_png : File :=
  {| file_name := lit "scan.png"; file_size := 1536;
     file_type := lit "image/png"; file_bytes := [137; 80; 78; 71] |}.

Definition photo_jpg : File :=
  {| file_name := lit "photo.jpg"; file_size := 4096;
     file_type := lit "image/jpeg"; file_bytes := [255; 216; 255] |}.

(** A prompt, a successful parse response and an answer with status 404. *)
Definition layout_prompt : Api.Prompt :=
  {| Api.id := lit "layout"; Api.name := lit "Layout";
     Api.description := lit "Parse the layout of the page." |}.

Definition invoice_response : Api.ParseResponse :=
  {| Api.success := true;
     Api.data := {| Api.markdown := lit "# Invoice";
                    Api.rawText := lit "Invoice" |};
     Api.metadata :=
       {| Api.storage_key := lit "uploads/invoice.pdf";
          Api.model := lit "dots.ocr";
          Api.processing_time_ms := 1200;
          Api.request_id := lit "req-1";
          Api.file_size_kb := 2 |} |}.

Definition not_found : Api.Response :=
  {| Api.status := 404; Api.statusText := lit "Not Found";
     Api.json_body := Ok VNull |}.

(** An answer with status 200 and the given parsed body. *)
Definition answer (body : value) : Api.Response :=
  {| Api.status := 200; Api.statusText := lit "OK";
     Api.json_body := Ok body |}.

(** The user picks the example file and the prompts arrive. *)
Definition ready_to_parse : list App.event :=
  [App.ExampleChosen; App.PromptsSettled (Ok [layout_prompt])].

(* ===================================================================== *)
(** * Part II: properties                                                 *)
(* ===================================================================== *)

(* --------------------------------------------------------------------- *)
(** ** Strings                                                            *)
(* --------------------------------------------------------------------- *)

Section StringFacts.
Implicit Types s t needle : jsstring.

Lemma startsWith_app needle t : startsWith (needle ++ t) needle = true.
Proof.
  induction needle as [|c needle IH]; simpl; [done|].
  by rewrite N.eqb_refl, IH.
Qed.

Lemma startsWith_inv s needle :
  startsWith s needle = true -> exists t, s = needle ++ t.
Proof.
  revert s. induction needle as [|c needle IH]; intros s Hs.
  - by exists s.
  - destruct s as [|d s]; simpl in Hs; [done|].
    apply andb_prop in Hs as [Hd Hs]. apply N.eqb_eq in Hd as ->.
    destruct (IH _ Hs) as [t ->]. by exists t.
Qed.

Lemma includes_here s needle :
  startsWith s needle = true -> includes s needle = true.
Proof. intros Hs. destruct s; simpl in *; by rewrite Hs. Qed.

Lemma includes_cons c s needle :
  includes s needle = true -> includes (c :: s) needle = true.
Proof. intros Hs. simpl. rewrite Hs. apply orb_true_r. Qed.

(** A string that has [needle] between a prefix and a suffix includes it. *)
Lemma includes_infix s needle t : includes (s ++ needle ++ t) needle = true.
Proof.
  induction s as [|c s IH]; simpl app.
  - apply includes_here, startsWith_app.
  - by apply includes_cons.
Qed.

Lemma includes_suffix s needle : includes (s ++ needle) needle = true.
Proof. rewrite <- (app_nil_r needle) at 1. apply includes_infix. Qed.

End StringFacts.

(* --------------------------------------------------------------------- *)
(** ** services/api.ts                                                    *)
(* --------------------------------------------------------------------- *)

Module ApiFacts.
Import Api.
Section ApiFacts.
Context `{Engine}.

Lemma ok_spec (response : Response) :
  ok response = true <-> 200 <= status response <= 299.
Proof.
  unfold ok. rewrite andb_true_iff, !N.leb_le. tauto.
Qed.

(** A response with a success status resolves to its parsed body. *)
Lemma handleResponse_success (response : Response) :
  ok response = true -> handleResponse response = json_body response.
Proof. intros Hok. unfold handleResponse. by rewrite Hok. Qed.

(** C5: a response whose status is neither in 200-299 nor 422 makes
    [handleResponse] throw an [Error] whose message is
    [HTTP <status>: <statusText>]; the message contains the status code in
    decimal and the status text. *)
Theorem handleResponse_http_error (response : Response) :
  ~ (200 <= status response <= 299) ->
  status response <> 422 ->
  exists message,
    handleResponse response = Throw (Error message)
    /\ message = lit "HTTP " ++ decimal (status response)
                 ++ lit ": " ++ statusText response
    /\ includes message (decimal (status response)) = true
    /\ includes message (statusText response) = true.
Proof.
  intros Hrange Hstatus.
  assert (ok response = false) as Hok.
  { apply not_true_is_false. by rewrite ok_spec. }
  apply N.eqb_neq in Hstatus.
  eexists. split; [|split; [reflexivity|split]].
  - unfold handleResponse. by rewrite Hok, Hstatus.
  - apply includes_infix.
  - rewrite !app_assoc. apply includes_suffix.
Qed.

(** The validation branch, for a body that is a plain object. *)
Lemma handleResponse_422_object (response : Response) properties :
  status response = 422 ->
  json_body response = Ok (VObj properties) ->
  handleResponse response =
    (first ← optional (default VUndefined
                         (own_property properties (lit "detail")))
                      Get_index0;
     msg ← optional first (fun v => Get v (lit "msg"));
     text ← ToString (or_else msg (VStr (lit "Invalid input")));
     Throw (Error (lit "Validation Error: " ++ text))).
Proof.
  intros Hstatus Hbody. unfold handleResponse, ok.
  rewrite Hstatus, Hbody. reflexivity.
Qed.

(** The validation branch, for any parsed body. *)
Lemma handleResponse_422_body (response : Response) (body : value) :
  status response = 422 ->
  json_body response = Ok body ->
  handleResponse response =
    (detail ← Get body (lit "detail");
     first ← optional detail Get_index0;
     msg ← optional first (fun v => Get v (lit "msg"));
     text ← ToString (or_else msg (VStr (lit "Invalid input")));
     Throw (Error (lit "Validation Error: " ++ text))).
Proof.
  intros Hstatus Hbody. unfold handleResponse, ok.
  rewrite Hstatus, Hbody. reflexivity.
Qed.

(** C1 (amended): take a 422 response whose body parses as JSON to a value
    other than [null], whatever its kind (object, list, string, number or
    boolean; [undefined] is no JSON value).  Its [detail] can then be read: it is the [detail] property of
    an object, and [undefined] (absent) for an object without one and for a
    body that is not an object.  When [detail] is a list that starts with an
    entry carrying a non-empty string [msg], the thrown message is
    [Validation Error: ] followed by that [msg]; when [detail] is absent,
    [null] or an empty list, it is [Validation Error: Invalid input]. *)
Theorem handleResponse_validation_error (response : Response) (body : value) :
  status response = 422 ->
  json_body response = Ok body ->
  body <> VNull ->
  body <> VUndefined ->
  exists detail,
    Get body (lit "detail") = Ok detail
    /\ (forall properties,
          body = VObj properties ->
          detail = default VUndefined (own_property properties (lit "detail")))
    /\ ((forall properties, body <> VObj properties) -> detail = VUndefined)
    /\ (forall entry rest m,
          detail = VArr (VObj entry :: rest) ->
          own_property entry (lit "msg") = Some (VStr m) ->
          m <> [] ->
          handleResponse response
            = Throw (Error (lit "Validation Error: " ++ m)))
    /\ (detail = VUndefined \/ detail = VNull \/ detail = VArr [] ->
        handleResponse response
          = Throw (Error (lit "Validation Error: Invalid input"))).
Proof.
  intros Hstatus Hbody Hnull Hundefined.
  rewrite (handleResponse_422_body _ _ Hstatus Hbody).
  assert (exists detail,
            Get body (lit "detail") = Ok detail
            /\ (forall properties,
                  body = VObj properties ->
                  detail = default VUndefined
                             (own_property properties (lit "detail")))
            /\ ((forall properties, body <> VObj properties) ->
                detail = VUndefined))
    as (detail & Hget & Hobject & Hother).
  { destruct body as [| |b|n|t|elements|properties];
      try congruence; eexists; (split; [reflexivity|]); split;
      try discriminate; try reflexivity.
    - intros ? [= <-]. reflexivity.
    - intros Hno. by destruct (Hno properties). }
  exists detail. rewrite Hget.
  split; [reflexivity|]. split; [exact Hobject|]. split; [exact Hother|].
  split.
  - intros entry rest m -> Hmsg Hm. simpl. rewrite Hmsg. simpl.
    unfold or_else. simpl. by rewrite bool_decide_eq_false_2.
  - by intros [-> | [-> | ->]].
Qed.

End ApiFacts.

(** At a 422 response with the body
    [{ detail: [{ msg: "field required" }] }] the thrown message is
    [Validation Error: field required], not the bare [msg]. *)
Lemma validation_message_is_prefixed :
  let msg := lit "field required" in
  let response :=
    unprocessable
      (VObj [(lit "detail", VArr [VObj [(lit "msg", VStr msg)]])]) in
  exists message,
    handleResponse response = Throw (Error message)
    /\ message = lit "Validation Error: field required"
    /\ message <> msg.
Proof. eexists. split; [vm_compute; reflexivity|]. by split. Qed.

Lemma handleResponse_validation_error_witness :
  handleResponse
    (unprocessable
       (VObj [(lit "detail",
               VArr [VObj [(lit "msg", VStr (lit "field required"))]])]))
    = Throw (Error (lit "Validation Error: field required"))
  /\ handleResponse (unprocessable (VObj []))
    = Throw (Error (lit "Validation Error: Invalid input"))
  /\ handleResponse (unprocessable (VObj [(lit "detail", VNull)]))
    = Throw (Error (lit "Validation Error: Invalid input"))
  /\ handleResponse (unprocessable (VStr (lit "Unprocessable")))
    = Throw (Error (lit "Validation Error: Invalid input")).
Proof.
  split; [|split; [|split]].
  - destruct (handleResponse_validation_error
                (unprocessable
                   (VObj [(lit "detail",
                           VArr [VObj [(lit "msg",
                                        VStr (lit "field required"))]])]))
                _ eq_refl eq_refl)
      as (detail & Hget & _ & _ & Hmsg & _); [discriminate..|].
    injection Hget as <-.
    apply (Hmsg _ [] _ eq_refl eq_refl). discriminate.
  - destruct (handleResponse_validation_error
                (unprocessable (VObj [])) _ eq_refl eq_refl)
      as (detail & Hget & _ & _ & _ & Hfallback); [discriminate..|].
    injection Hget as <-. apply Hfallback. left. reflexivity.
  - destruct (handleResponse_validation_error
                (unprocessable (VObj [(lit "detail", VNull)]))
                _ eq_refl eq_refl)
      as (detail & Hget & _ & _ & _ & Hfallback); [discriminate..|].
    injection Hget as <-. apply Hfallback. right. left. reflexivity.
  - destruct (handleResponse_validation_error
                (unprocessable (VStr (lit "Unprocessable")))
                _ eq_refl eq_refl)
      as (detail & Hget & _ & _ & _ & Hfallback); [discriminate..|].
    injection Hget as <-. apply Hfallback. left. reflexivity.
Defined.

Lemma handleResponse_http_error_witness :
  exists message,
    handleResponse
      {| status := 404; statusText := lit "Not Found";
         json_body := Ok VNull |} = Throw (Error message)
    /\ message = lit "HTTP 404: Not Found".
Proof.
  destruct (handleResponse_http_error
              {| status := 404; statusText := lit "Not Found";
                 json_body := Ok VNull |}) as (message & Hthrow & Hmsg & _).
  - simpl. lia.
  - discriminate.
  - exists message. split; [exact Hthrow | exact Hmsg].
Defined.

End ApiFacts.

(* --------------------------------------------------------------------- *)
(** ** components/OCRInterface.tsx                                        *)
(* --------------------------------------------------------------------- *)

Module OCRInterfaceFacts.
Import OCRInterface.
Section OCRInterfaceFacts.
Context `{Engine}.

(** C9: [handleFileSelect] stores the chosen file and clears [hasOutput];
    [isLoading] and [outputData] keep the values they had. *)
Theorem handleFileSelect_frame (file : File) (st : State) :
  selectedFile (handleFileSelect file st) = Some file
  /\ hasOutput (handleFileSelect file st) = false
  /\ isLoading (handleFileSelect file st) = isLoading st
  /\ outputData (handleFileSelect file st) = outputData st.
Proof. by repeat split. Qed.

(** The state a parse is pending in. *)
Lemma handleParse_start_pending (st : State) :
  isLoading (handleParse_start st) = true
  /\ hasOutput (handleParse_start st) = false
  /\ outputData (handleParse_start st) = None
  /\ selectedFile (handleParse_start st) = selectedFile st.
Proof. by repeat split. Qed.

Lemma select_all_frame (files : list File) (st : State) :
  isLoading (select_all files st) = isLoading st
  /\ outputData (select_all files st) = outputData st
  /\ (hasOutput st = false -> hasOutput (select_all files st) = false).
Proof.
  revert st. induction files as [|file files IH]; intros st; [done|].
  simpl. destruct (IH (handleFileSelect file st)) as (Hl & Hd & Hh).
  rewrite Hl, Hd. repeat split. intros _. by apply Hh.
Qed.

Lemma handleParse_settled_state (outcome : result (option Api.ParseResponse))
  (st : State) (w : Browser) :
  (handleParse_settled outcome st w).1 =
    match outcome with
    | Ok response =>
      setIsLoading false (setHasOutput true (setOutputData response st))
    | Throw _ => setIsLoading false st
    end.
Proof. by destruct outcome. Qed.

(** C4 (amended): after a run of [handleParse], if [parseDocument] resolved
    then [hasOutput] is true, [isLoading] is false and [outputData] is the
    value it resolved to, which is the parsed body of the answer: the
    response when that body is not [null], and [null] when it is.  If it
    rejected then [hasOutput] is false, [outputData] is null and [isLoading]
    is false, the output fields being those of the pending state.  The same
    holds when files are selected while the call is in flight. *)
Theorem handleParse_outcome
  (parseDocument : File -> jsstring -> Browser ->
                   Browser * result (option Api.ParseResponse))
  (file : File) (promptId : jsstring) (st : State) (w : Browser) :
  (let st' := (handleParse parseDocument file promptId st w).1 in
   match (parseDocument file promptId w).2 with
   | Ok resolved =>
     hasOutput st' = true /\ outputData st' = resolved
     /\ isLoading st' = false
   | Throw _ =>
     hasOutput st' = false /\ outputData st' = None
     /\ isLoading st' = false
     /\ hasOutput st' = hasOutput (handleParse_start st)
     /\ outputData st' = outputData (handleParse_start st)
   end)
  /\ (forall (files : list File)
             (outcome : result (option Api.ParseResponse)) (w' : Browser),
      let st' := (handleParse_settled outcome
                    (select_all files (handleParse_start st)) w').1 in
      match outcome with
      | Ok resolved =>
        hasOutput st' = true /\ outputData st' = resolved
        /\ isLoading st' = false
      | Throw _ =>
        hasOutput st' = false /\ outputData st' = None
        /\ isLoading st' = false
      end)
  /\ forall (as_ParseResponse : value -> Api.ParseResponse)
            (net : Request -> result Api.Response)
            (response : Api.Response) (body : value),
      net (Api.parseDocument_request file promptId) = Ok response ->
      Api.ok response = true ->
      Api.json_body response = Ok body ->
      let st' := (handleParse (App.parseDocument as_ParseResponse net)
                    file promptId st w).1 in
      hasOutput st' = true /\ isLoading st' = false
      /\ (body = VNull -> outputData st' = None)
      /\ (body <> VNull -> body <> VUndefined ->
          outputData st' = Some (as_ParseResponse body)).
Proof.
  split; [|split].
  - unfold handleParse.
    destruct (parseDocument file promptId w) as [w1 outcome]. simpl.
    rewrite handleParse_settled_state. by destruct outcome.
  - intros files outcome w'. simpl. rewrite handleParse_settled_state.
    destruct (select_all_frame files (handleParse_start st))
      as (_ & Hd & Hh).
    destruct outcome; simpl; [done|].
    rewrite Hd. repeat split. by apply Hh.
  - intros as_ParseResponse net response body Hnet Hok Hbody.
    unfold handleParse, App.parseDocument, Api.parseDocument, Api.fetch.
    rewrite Hnet. simpl. rewrite (ApiFacts.handleResponse_success _ Hok).
    rewrite Hbody, handleParse_settled_state.
    destruct body; simpl; repeat split; congruence.
Qed.

(** The error toast carries the message of the error, or a fixed text when
    what was thrown is not an [Error]. *)
Lemma handleParse_error_toast (e : thrown) (st : State) (w : Browser) :
  exists t,
    toasts (handleParse_settled (Throw e) st w).2 = toasts w ++ [t]
    /\ toast_title t = lit "Parse Error"
    /\ toast_description t =
         match e with
         | ErrorObject _ message => message
         | NonError => lit "Failed to parse document"
         end.
Proof. eexists. by repeat split. Qed.

End OCRInterfaceFacts.

(** When the parse request is answered with status 200 and the body [null],
    the call resolves, the handler takes the success path and ends with
    [hasOutput] set while [outputData] is null: there is no response in it. *)
Lemma parse_resolving_to_null :
  let parseDocument :=
    App.parseDocument (fun _ => invoice_response)
                      (fun _ => Ok (answer VNull)) in
  let st' := (handleParse parseDocument report_pdf (lit "layout")
                initial initial_browser).1 in
  (parseDocument report_pdf (lit "layout") initial_browser).2 = Ok None
  /\ hasOutput st' = true
  /\ isLoading st' = false
  /\ outputData st' = None
  /\ ~ is_Some (outputData st').
Proof.
  split; [reflexivity|]. split; [reflexivity|]. split; [reflexivity|].
  split; [reflexivity|]. by intros [response Hresponse].
Qed.

Lemma handleParse_outcome_witness :
  let st' := (handleParse
                (App.parseDocument (fun _ => invoice_response)
                   (fun _ => Ok (answer (VObj []))))
                report_pdf (lit "layout") initial initial_browser).1 in
  hasOutput st' = true /\ isLoading st' = false
  /\ outputData st' = Some invoice_response.
Proof.
  destruct (proj2 (proj2 (handleParse_outcome
                            (App.parseDocument (fun _ => invoice_response)
                               (fun _ => Ok (answer (VObj []))))
                            report_pdf (lit "layout") initial
                            initial_browser))
              (fun _ => invoice_response) (fun _ => Ok (answer (VObj [])))
              (answer (VObj [])) (VObj []) eq_refl eq_refl eq_refl)
    as (Hout & Hload & _ & Hdata).
  split; [exact Hout|]. split; [exact Hload|].
  apply Hdata; discriminate.
Defined.

End OCRInterfaceFacts.

(* --------------------------------------------------------------------- *)
(** ** components/Sidebar.tsx and the request of [parseDocument]          *)
(* --------------------------------------------------------------------- *)

Module SidebarFacts.
Import Sidebar.
Section SidebarFacts.
Context `{Engine}.

Lemma parse_disabled_false (st : State) (isLoading : bool) :
  parse_disabled st isLoading = false ->
  is_Some (selectedFile st) /\ selectedPrompt st <> []
  /\ isLoading = false /\ loadingPrompts st = false.
Proof.
  unfold parse_disabled. rewrite !orb_false_iff, negb_false_iff.
  rewrite bool_decide_eq_true, bool_decide_eq_false. tauto.
Qed.

Lemma handleParseClick_inv (st : State) (f : File) (p : jsstring) :
  In (onParse f p) (handleParseClick st) ->
  selectedFile st = Some f /\ p = selectedPrompt st /\ p <> [].
Proof.
  unfold handleParseClick. destruct (selectedFile st) as [file|]; [|done].
  case_bool_decide as Hp; simpl; [done|].
  intros [Heq|[]]. by inversion Heq; subst.
Qed.

(** C7: [parseDocument] sends one request whose body is a form of exactly two
    fields, [file] holding the file and [promptId] holding the identifier;
    the Parse button is disabled whenever no file is selected or the selected
    prompt is empty, and neither a click on it nor [handleParseClick] then
    calls [onParse]; every [onParse] call carries the selected file and a
    non-empty prompt identifier. *)
Theorem parse_needs_file_and_prompt :
  (forall (net : Request -> result Api.Response) (file : File)
          (promptId : jsstring) (w : Browser),
     Api.parseDocument_formData file promptId
       = [(lit "file", FormFile file); (lit "promptId", FormString promptId)]
     /\ requests (Api.parseDocument net file promptId w).1
        = requests w ++ [Api.parseDocument_request file promptId]
     /\ request_body (Api.parseDocument_request file promptId)
        = Some (Api.parseDocument_formData file promptId))
  /\ (forall (st : State) (isLoading : bool),
        selectedFile st = None \/ selectedPrompt st = [] ->
        parse_disabled st isLoading = true
        /\ click_parse st isLoading = []
        /\ handleParseClick st = [])
  /\ (forall (st : State) (isLoading : bool) (f : File) (p : jsstring),
        In (onParse f p) (click_parse st isLoading) ->
        selectedFile st = Some f /\ p = selectedPrompt st /\ p <> []).
Proof.
  split; [|split].
  - intros net file promptId w. by repeat split.
  - intros st isLoading Hmissing.
    assert (parse_disabled st isLoading = true) as Hdis.
    { unfold parse_disabled. destruct Hmissing as [-> | ->]; [done|].
      simpl. by rewrite orb_true_r. }
    split; [done|]. unfold click_parse. rewrite Hdis. split; [done|].
    unfold handleParseClick. destruct Hmissing as [-> | ->]; [done|].
    by destruct (selectedFile st).
  - intros st isLoading f p. unfold click_parse.
    destruct (parse_disabled st isLoading); [done|].
    apply handleParseClick_inv.
Qed.

End SidebarFacts.

Lemma parse_needs_file_and_prompt_witness :
  parse_disabled initial false = true
  /\ click_parse initial false = []
  /\ selectedFile
       (setSelectedPrompt (lit "layout") (handleExampleSelect initial).1)
     = Some mockFile.
Proof.
  destruct parse_needs_file_and_prompt as (_ & Hdisabled & Hcalls).
  destruct (Hdisabled initial false) as (Hd & Hc & _).
  { left. reflexivity. }
  destruct (Hcalls
              (setLoadingPrompts false
                 (setSelectedPrompt (lit "layout")
                    (handleExampleSelect initial).1))
              false mockFile (lit "layout")) as (Hf & _).
  { left. reflexivity. }
  split; [exact Hd | split; [exact Hc | exact Hf]].
Defined.

End SidebarFacts.

(* --------------------------------------------------------------------- *)
(** ** components/OutputPanel.tsx: content, copy and download             *)
(* --------------------------------------------------------------------- *)

Module OutputPanelFacts.
Import OutputPanel OutputContent.
Section OutputPanelFacts.
Context `{Engine}.

Lemma handleDownload_downloads (content filename : jsstring) (w : Browser) :
  downloads (handleDownload content filename w)
    = downloads w ++ [text_file filename content].
Proof.
  unfold handleDownload, createObjectURL, click_download_link. simpl.
  rewrite lookup_insert_eq. simpl.
  unfold text_file, new_Blob. simpl. by rewrite app_nil_r.
Qed.

(** The object URL made for a download is gone when the handler returns. *)
Lemma handleDownload_releases (content filename : jsstring) (w : Browser) :
  object_urls w !! next_object_url w = None ->
  object_urls (handleDownload content filename w) = object_urls w.
Proof.
  intros Hfresh.
  unfold handleDownload, createObjectURL, click_download_link. simpl.
  rewrite lookup_insert_eq. simpl.
  rewrite delete_insert_eq. by apply delete_id.
Qed.

Lemma handleCopy_clipboard (content : jsstring) (w : Browser) :
  clipboard (handleCopy content w) = Some content.
Proof. reflexivity. Qed.

Lemma or_string_nonempty (s fallback : jsstring) :
  s <> [] -> or_string (Some s) fallback = s.
Proof. intros Hs. destruct s; [congruence | reflexivity]. Qed.

Lemma content_real (props : Props) (d : Api.ParseData) :
  outputData props = Some d ->
  (Api.markdown d <> [] -> markdownContent props = Api.markdown d)
  /\ (Api.rawText d <> [] -> rawTextContent props = Api.rawText d).
Proof.
  intros Hd. unfold markdownContent, rawTextContent. rewrite Hd. simpl.
  split; apply or_string_nonempty.
Qed.

Lemma content_sample (props : Props) :
  (lacks Api.markdown props -> markdownContent props = sampleMarkdown)
  /\ (lacks Api.rawText props -> rawTextContent props = sampleRawText).
Proof.
  unfold lacks, markdownContent, rawTextContent.
  destruct (outputData props) as [d|]; simpl; [|done].
  split; by intros ->.
Qed.

(** C3 (amended): with a parse result whose raw text is not empty, the
    download action on the raw tab saves one file named [output.txt] whose
    bytes are those of the raw text; with a non-empty markdown, the download
    action on the markdown tab saves [output.md] with the bytes of the
    markdown. *)
Theorem click_download_file (props : Props) (d : Api.ParseData)
  (w : Browser) :
  outputData props = Some d ->
  (Api.rawText d <> [] ->
   downloads (click_download props (lit "raw") w)
     = downloads w ++ [text_file (lit "output.txt") (Api.rawText d)])
  /\ (Api.markdown d <> [] ->
      downloads (click_download props (lit "markdown") w)
        = downloads w ++ [text_file (lit "output.md") (Api.markdown d)]).
Proof.
  intros Hd. destruct (content_real props d Hd) as [Hmd Hraw].
  split; intros Hne; unfold click_download;
    rewrite handleDownload_downloads.
  - rewrite bool_decide_eq_false_2 by discriminate. by rewrite Hraw.
  - rewrite bool_decide_eq_true_2 by reflexivity. by rewrite Hmd.
Qed.

(** C10: when the parse result is missing or its markdown (raw text) is the
    empty string, the panel uses the sample markdown (sample raw text)
    instead: the shown pane, the clipboard after Copy and the file saved by
    Download all hold the sample.  The real markdown (raw text) is used
    exactly when it is a non-empty string. *)
Theorem sample_substitution (props : Props) (activeTab : State)
  (w : Browser) :
  (lacks Api.markdown props ->
   markdownContent props = sampleMarkdown
   /\ (hasOutput props = true -> isLoading props = false ->
       render props activeTab
         = Card activeTab
             (Panes (formatMarkdownForDisplay sampleMarkdown)
                    (rawTextContent props) (metadata props)))
   /\ clipboard (click_copy props (lit "markdown") w) = Some sampleMarkdown
   /\ downloads (click_download props (lit "markdown") w)
      = downloads w ++ [text_file (lit "output.md") sampleMarkdown])
  /\ (lacks Api.rawText props ->
      rawTextContent props = sampleRawText
      /\ (hasOutput props = true -> isLoading props = false ->
          render props activeTab
            = Card activeTab
                (Panes (formatMarkdownForDisplay (markdownContent props))
                       sampleRawText (metadata props)))
      /\ clipboard (click_copy props (lit "raw") w) = Some sampleRawText
      /\ downloads (click_download props (lit "raw") w)
         = downloads w ++ [text_file (lit "output.txt") sampleRawText])
  /\ (forall d, outputData props = Some d ->
        (Api.markdown d <> [] -> markdownContent props = Api.markdown d)
        /\ (Api.rawText d <> [] -> rawTextContent props = Api.rawText d)).
Proof.
  destruct (content_sample props) as [Hmd Hraw].
  split; [|split].
  - intros Hlacks. specialize (Hmd Hlacks). split; [done|]. split; [|split].
    + intros Hout Hload. unfold render. by rewrite Hout, Hload, Hmd.
    + unfold click_copy. rewrite bool_decide_eq_true_2 by reflexivity.
      by rewrite Hmd.
    + unfold click_download. rewrite handleDownload_downloads.
      rewrite bool_decide_eq_true_2 by reflexivity. by rewrite Hmd.
  - intros Hlacks. specialize (Hraw Hlacks). split; [done|]. split; [|split].
    + intros Hout Hload. unfold render. by rewrite Hout, Hload, Hraw.
    + unfold click_copy. rewrite bool_decide_eq_false_2 by discriminate.
      by rewrite Hraw.
    + unfold click_download. rewrite handleDownload_downloads.
      rewrite bool_decide_eq_false_2 by discriminate. by rewrite Hraw.
  - apply content_real.
Qed.

End OutputPanelFacts.

(** With an empty raw text, [output.txt] holds the sample text, not the
    (empty) raw text of the parse result. *)
Lemma download_of_empty_raw_text :
  exists bytes,
    downloads (click_download blank_scan (lit "raw") initial_browser)
      = [(lit "output.txt",
          {| blob_bytes := bytes; blob_type := lit "text/plain" |})]
    /\ bytes = utf8_encode sampleRawText
    /\ bytes <> utf8_encode [].
Proof.
  eexists. split; [|split].
  - unfold click_download. rewrite handleDownload_downloads. reflexivity.
  - reflexivity.
  - vm_compute. discriminate.
Qed.

Lemma click_download_file_witness :
  downloads (click_download invoice_scan (lit "raw") initial_browser)
    = [text_file (lit "output.txt") (lit "Invoice")]
  /\ downloads (click_download invoice_scan (lit "markdown") initial_browser)
    = [text_file (lit "output.md") (lit "# Invoice")].
Proof.
  destruct (click_download_file invoice_scan
              {| Api.markdown := lit "# Invoice";
                 Api.rawText := lit "Invoice" |}
              initial_browser eq_refl) as [Hraw Hmd].
  split; [apply Hraw | apply Hmd]; discriminate.
Defined.

Lemma sample_substitution_witness :
  rawTextContent blank_scan = sampleRawText
  /\ clipboard (click_copy blank_scan (lit "raw") initial_browser)
     = Some sampleRawText
  /\ markdownContent blank_scan = lit "# Scan".
Proof.
  destruct (sample_substitution blank_scan (lit "raw") initial_browser)
    as (_ & Hraw & Hreal).
  destruct (Hraw eq_refl) as (Hcontent & _ & Hcopy & _).
  destruct (Hreal _ eq_refl) as (Hmd & _).
  split; [exact Hcontent | split; [exact Hcopy |]].
  apply Hmd. discriminate.
Defined.

End OutputPanelFacts.

(* --------------------------------------------------------------------- *)
(** ** components/OutputPanel.tsx: [formatMarkdownForDisplay]             *)
(* --------------------------------------------------------------------- *)

Module MarkdownFacts.
Import OutputPanel LineBreaks.

(** *** Occurrences *)

Lemma holds_cons needle n c s :
  holds needle n s -> holds needle n (c :: s).
Proof.
  intros Hs. destruct Hs as [s|n a s Hs]; [constructor|].
  apply (holds_more needle n (c :: a) s Hs).
Qed.

Lemma holds_app needle n a s :
  holds needle n s -> holds needle n (a ++ s).
Proof. intros Hs. induction a; simpl; [done|]. by apply holds_cons. Qed.

Lemma occurrences_cons needle c s :
  occurrences needle (c :: s)
    = ((if startsWith (c :: s) needle then 1 else 0)
       + occurrences needle s)%nat.
Proof. reflexivity. Qed.

Lemma occurrences_app_r needle a s :
  (occurrences needle s <= occurrences needle (a ++ s))%nat.
Proof. induction a; simpl; lia. Qed.

Lemma occurrences_here needle s :
  needle <> [] ->
  (S (occurrences needle s) <= occurrences needle (needle ++ s))%nat.
Proof.
  intros Hne. destruct needle as [|c needle]; [done|].
  change (occurrences (c :: needle) ((c :: needle) ++ s))
    with ((if startsWith ((c :: needle) ++ s) (c :: needle) then 1 else 0)
          + occurrences (c :: needle) (needle ++ s))%nat.
  rewrite startsWith_app.
  pose proof (occurrences_app_r (c :: needle) needle s). lia.
Qed.

(** [n] disjoint occurrences are among the positions that [occurrences]
    counts. *)
Lemma holds_occurrences needle n s :
  needle <> [] -> holds needle n s -> (n <= occurrences needle s)%nat.
Proof.
  intros Hne Hs. induction Hs as [s|n a s Hs IH]; [lia|].
  pose proof (occurrences_app_r needle a (needle ++ s)).
  pose proof (occurrences_here needle s Hne). lia.
Qed.

(** *** Edits keep the line breaks *)

Lemma edit_refl s : edit s s.
Proof. induction s; by constructor. Qed.

Lemma edit_app_keep g s s' : edit s s' -> edit (g ++ s) (g ++ s').
Proof. intros Hs. induction g; simpl; [done|]. by constructor. Qed.

Lemma edit_delete u s s' :
  unprotected_word u = true -> edit s s' -> edit (u ++ s) s'.
Proof.
  intros Hu Hs. induction u as [|c u IH]; simpl in *; [done|].
  apply andb_prop in Hu as [Hc Hu]. apply negb_true_iff in Hc.
  apply (edit_subst c [] _ _ Hc). by apply IH.
Qed.

(** An unprotected, non-empty word is rewritten into any word. *)
Lemma edit_replace_word u w s s' :
  u <> [] -> unprotected_word u = true ->
  edit s s' -> edit (u ++ s) (w ++ s').
Proof.
  intros Hne Hu Hs. destruct u as [|c u]; [done|]. simpl in *.
  apply andb_prop in Hu as [Hc Hu]. apply negb_true_iff in Hc.
  apply (edit_subst c w _ _ Hc). by apply edit_delete.
Qed.

(** A word is added at the end of the subject or before an unprotected code
    unit. *)
Lemma edit_insert w s s' :
  match s with [] => True | c :: _ => protected c = false end ->
  edit s s' -> edit s (w ++ s').
Proof.
  intros Hhead Hs. destruct s as [|c s]; [constructor|].
  inversion Hs as [|c' t t' Ht|c' w' t t' Hc Ht]; subst.
  - change (w ++ c :: t') with (w ++ [c] ++ t'). rewrite app_assoc.
    by apply edit_subst.
  - rewrite app_assoc. by apply edit_subst.
Qed.

Lemma edit_split a t s' :
  edit (a ++ t) s' -> exists a' t', s' = a' ++ t' /\ edit t t'.
Proof.
  revert s'. induction a as [|c a IH]; intros s' Hs.
  - by exists [], s'.
  - simpl in Hs. inversion Hs as [|c' u u' Hu|c' w u u' Hc Hu]; subst.
    + destruct (IH _ Hu) as (a' & t' & -> & Ht). by exists (c :: a'), t'.
    + destruct (IH _ Hu) as (a' & t' & -> & Ht).
      exists (w ++ a'), t'. by rewrite app_assoc.
Qed.

Lemma edit_protected_prefix p t s' :
  forallb protected p = true ->
  edit (p ++ t) s' -> exists t', s' = p ++ t' /\ edit t t'.
Proof.
  revert s'. induction p as [|c p IH]; intros s' Hp Hs.
  - by exists s'.
  - simpl in Hp, Hs. apply andb_prop in Hp as [Hc Hp].
    inversion Hs as [|c' u u' Hu|c' w u u' Hc' Hu]; subst.
    + destruct (IH _ Hp Hu) as (t' & -> & Ht). by exists t'.
    + congruence.
Qed.

Lemma edit_holds n s s' : holds BR n s -> edit s s' -> holds BR n s'.
Proof.
  intros Hs. revert s'. induction Hs as [s|n a s Hs IH]; intros s' Hedit.
  - constructor.
  - destruct (edit_split _ _ _ Hedit) as (a' & t' & -> & Ht).
    destruct (edit_protected_prefix BR s t' eq_refl Ht) as (t'' & -> & Ht'').
    constructor. by apply IH.
Qed.

(** *** The substitutions are edits *)

Lemma replace_from_edit exec :
  edits exec ->
  forall s skip prev, edit (drop skip s) (replace_from exec skip prev s).
Proof.
  intros Hexec. induction s as [|c rest IH]; intros skip prev.
  - rewrite drop_nil. constructor.
  - destruct skip as [|skip]; simpl.
    + destruct (exec prev (c :: rest)) as [[n out]|] eqn:Hmatch.
      * destruct (Hexec _ _ _ _ Hmatch) as [Hn Hout].
        apply Hout. destruct n as [|n]; [lia|]. simpl. apply IH.
      * constructor. apply (IH 0%nat).
    + apply IH.
Qed.

Lemma replace_edit exec s : edits exec -> edit s (replace exec s).
Proof. intros Hexec. apply (replace_from_edit exec Hexec s 0%nat None). Qed.

Lemma drop_length_app (u s : jsstring) : drop (length u) (u ++ s) = s.
Proof. induction u; simpl; auto. Qed.

Lemma lazy_dots_until_inv close s group :
  lazy_dots_until close s = Some group ->
  exists rest, s = group ++ close ++ rest.
Proof.
  revert group. induction s as [|c s IH]; intros group; simpl.
  - destruct (startsWith [] close) eqn:Hclose; [|done].
    intros [= <-]. apply startsWith_inv in Hclose as [rest Hrest].
    exists rest. exact Hrest.
  - destruct (startsWith (c :: s) close) eqn:Hclose.
    + intros [= <-]. apply startsWith_inv in Hclose as [rest Hrest].
      exists rest. exact Hrest.
    + destruct (LineTerminator c); [done|].
      destruct (lazy_dots_until close s) as [g|]; [|done].
      intros [= <-]. destruct (IH g eq_refl) as [rest ->]. by exists rest.
Qed.

Lemma exec_delimited_edits open close before after :
  open <> [] -> unprotected_word open = true ->
  close <> [] -> unprotected_word close = true ->
  edits (exec_delimited open close before after).
Proof.
  intros Hopen Huopen Hclose Huclose prev s n out. unfold exec_delimited.
  destruct (startsWith s open) eqn:Hs; [|done].
  apply startsWith_inv in Hs as [t ->]. rewrite drop_length_app.
  destruct (lazy_dots_until close t) as [group|] eqn:Hgroup; [|done].
  apply lazy_dots_until_inv in Hgroup as [rest ->].
  intros [= <- <-]. split.
  { destruct open; [done|simpl; lia]. }
  intros y Hy.
  replace (drop _ _) with rest in Hy.
  - rewrite <- !app_assoc.
    apply edit_replace_word; [done..|]. apply edit_app_keep.
    by apply edit_replace_word.
  - rewrite <- Nat.add_assoc, <- !length_app.
    replace (open ++ group ++ close ++ rest)
      with ((open ++ group ++ close) ++ rest) by (by rewrite <- !app_assoc).
    by rewrite drop_length_app.
Qed.

Lemma LineTerminator_unprotected c :
  LineTerminator c = true -> protected c = false.
Proof.
  unfold LineTerminator. rewrite !orb_true_iff, !N.eqb_eq.
  by intros [[[-> | ->] | ->] | ->].
Qed.

Lemma rest_of_line_split s :
  exists rest,
    s = rest_of_line s ++ rest
    /\ match rest with [] => True | c :: _ => protected c = false end.
Proof.
  induction s as [|c s (rest & Hs & Hrest)]; simpl.
  - by exists [].
  - destruct (LineTerminator c) eqn:Hc.
    + exists (c :: s). split; [done|]. by apply LineTerminator_unprotected.
    + exists rest. split; [simpl; congruence | done].
Qed.

Lemma exec_heading_edits marker before after :
  marker <> [] -> unprotected_word marker = true ->
  edits (exec_heading marker before after).
Proof.
  intros Hmarker Humarker prev s n out. unfold exec_heading.
  destruct (at_line_start prev && startsWith s marker) eqn:Hs; [|done].
  apply andb_prop in Hs as [_ Hs].
  apply startsWith_inv in Hs as [t ->]. rewrite drop_length_app.
  destruct (rest_of_line_split t) as (rest & Ht & Hrest).
  set (group := rest_of_line t) in *. clearbody group. subst t.
  intros [= <- <-]. split.
  { destruct marker; [done|simpl; lia]. }
  intros y Hy.
  replace (drop _ _) with rest in Hy.
  - rewrite <- !app_assoc.
    apply edit_replace_word; [done..|]. apply edit_app_keep.
    by apply edit_insert.
  - rewrite <- length_app, app_assoc. by rewrite drop_length_app.
Qed.

(** *** The first substitution makes the line breaks *)

Lemma newline_to_br_from prev s :
  replace_from (exec_newline BR) 0 prev s
    = flat_map (fun c => if c =? 10 then BR else [c]) s.
Proof.
  revert prev. induction s as [|c s IH]; intros prev; simpl; [done|].
  destruct (c =? 10); simpl; by rewrite IH.
Qed.

(** [newline_to_br] puts the tag in the place of each newline and copies
    every other code unit. *)
Lemma newline_to_br_spec s :
  newline_to_br s = flat_map (fun c => if c =? 10 then BR else [c]) s.
Proof. apply newline_to_br_from. Qed.

Lemma newline_to_br_holds s :
  holds BR (occurrences LF s) (newline_to_br s).
Proof.
  rewrite newline_to_br_spec. induction s as [|c s IH]; [constructor|].
  cbn [occurrences flat_map]. unfold LF at 1. cbn [startsWith].
  rewrite andb_true_r. destruct (c =? 10); simpl.
  - apply (holds_more BR _ [] _ IH).
  - by apply holds_cons.
Qed.

(** *** The substitutions make exactly one tag for each newline *)

Lemma BR_units : BR = [60; 98; 114; 47; 62].
Proof. reflexivity. Qed.

Lemma unprotected_split c :
  protected c = false -> (c =? 60) = false /\ inner c = false.
Proof. unfold protected. rewrite BR_units. simpl. by intros [? ?]%orb_false_elim. Qed.

(** A code unit that cannot continue a tag cuts the subject in two as far as
    tags that start before it are concerned. *)
Lemma startsWith_cut x a t :
  inner x = false -> a <> [] ->
  startsWith (a ++ x :: t) BR = startsWith a BR.
Proof.
  unfold inner. rewrite BR_units. simpl.
  intros (H98 & (H114 & (H47 & (H62 & _)%orb_false_elim)%orb_false_elim)
              %orb_false_elim)%orb_false_elim Ha.
  destruct a as [|c1 [|c2 [|c3 [|c4 [|c5 a]]]]]; [done|..]; simpl;
    rewrite ?H98, ?H114, ?H47, ?H62, ?andb_false_r; done.
Qed.

Lemma occurrences_cut x a t :
  inner x = false ->
  occurrences BR (a ++ x :: t)
    = (occurrences BR a + occurrences BR (x :: t))%nat.
Proof.
  intros Hx. induction a as [|c a IH]; [done|].
  rewrite <- app_comm_cons.
  rewrite (occurrences_cons BR c (a ++ x :: t)), (occurrences_cons BR c a).
  rewrite IH, app_comm_cons, startsWith_cut by done. lia.
Qed.

Lemma occurrences_skip (c : code_unit) (t : jsstring) :
  (c =? 60) = false -> occurrences BR (c :: t) = occurrences BR t.
Proof.
  intros Hc. rewrite occurrences_cons, BR_units. simpl. by rewrite Hc.
Qed.

Lemma occurrences_unprotected u t :
  unprotected_word u = true -> occurrences BR (u ++ t) = occurrences BR t.
Proof.
  intros Hu. induction u as [|c u IH]; [done|]. simpl in Hu.
  apply andb_prop in Hu as [Hc%negb_true_iff Hu].
  destruct (unprotected_split c Hc) as [Hc60 _].
  change ((c :: u) ++ t) with (c :: (u ++ t)).
  rewrite occurrences_skip by done. by apply IH.
Qed.

(** An unprotected, non-empty word separates what is before it from what is
    after it. *)
Lemma occurrences_separator u a t :
  u <> [] -> unprotected_word u = true ->
  occurrences BR (a ++ u ++ t)
    = (occurrences BR a + occurrences BR t)%nat.
Proof.
  intros Hne Hu. destruct u as [|c u]; [done|].
  pose proof Hu as [Hc%negb_true_iff _]%andb_prop.
  destruct (unprotected_split c Hc) as [_ Hinner].
  change (a ++ (c :: u) ++ t) with (a ++ c :: (u ++ t)).
  rewrite occurrences_cut by done.
  change (c :: (u ++ t)) with ((c :: u) ++ t).
  by rewrite occurrences_unprotected.
Qed.

Lemma unprotected_inert u :
  u <> [] -> unprotected_word u = true -> inert u.
Proof. intros Hne Hu a t. by apply occurrences_separator. Qed.

(** Between two inert words, only the framed part counts. *)
Lemma inert_frame w1 w2 a g t :
  inert w1 -> inert w2 ->
  occurrences BR (a ++ w1 ++ g ++ w2 ++ t)
    = (occurrences BR a + occurrences BR g + occurrences BR t)%nat.
Proof. intros H1 H2. rewrite (H1 a), (H2 g). lia. Qed.

(** A word that begins with [<] and in which no tag starts is inert. *)
Lemma inert_tag w :
  (forall t, occurrences BR ((60 :: w) ++ t) = occurrences BR t) ->
  inert (60 :: w).
Proof.
  intros Hw a t.
  change (a ++ (60 :: w) ++ t) with (a ++ 60 :: (w ++ t)).
  rewrite occurrences_cut by done. by rewrite <- (Hw t).
Qed.

Ltac inert_tag :=
  apply inert_tag; intros t; rewrite BR_units; reflexivity.

Lemma inert_strong : inert (lit "<strong>") /\ inert (lit "</strong>").
Proof. split; inert_tag. Qed.

Lemma inert_em : inert (lit "<em>") /\ inert (lit "</em>").
Proof. split; inert_tag. Qed.

Lemma inert_h1 : inert (lit "<h1>") /\ inert (lit "</h1>").
Proof. split; inert_tag. Qed.

Lemma inert_h2 : inert (lit "<h2>") /\ inert (lit "</h2>").
Proof. split; inert_tag. Qed.

Lemma inert_h3 : inert (lit "<h3>") /\ inert (lit "</h3>").
Proof. split; inert_tag. Qed.

Lemma replace_from_count exec :
  keeps_count exec ->
  forall s skip prev a,
    occurrences BR (a ++ replace_from exec skip prev s)
      = occurrences BR (a ++ drop skip s).
Proof.
  intros Hexec. induction s as [|c rest IH]; intros skip prev a.
  - by rewrite drop_nil.
  - destruct skip as [|skip]; simpl.
    + destruct (exec prev (c :: rest)) as [[n out]|] eqn:Hmatch.
      * destruct (Hexec _ _ _ _ Hmatch) as [Hn Hout].
        destruct n as [|n]; [lia|]. simpl.
        rewrite app_assoc, IH, <- app_assoc. apply Hout.
      * rewrite (cons_middle c a), app_assoc, (IH 0%nat).
        by rewrite <- app_assoc.
    + apply IH.
Qed.

Lemma replace_count exec s :
  keeps_count exec -> occurrences BR (replace exec s) = occurrences BR s.
Proof.
  intros Hexec. apply (replace_from_count exec Hexec s 0%nat None []).
Qed.

Lemma exec_delimited_keeps_count open close before after :
  open <> [] -> unprotected_word open = true ->
  close <> [] -> unprotected_word close = true ->
  inert before -> inert after ->
  keeps_count (exec_delimited open close before after).
Proof.
  intros Hopen Huopen Hclose Huclose Hbefore Hafter prev s n out.
  unfold exec_delimited.
  destruct (startsWith s open) eqn:Hs; [|done].
  apply startsWith_inv in Hs as [t ->]. rewrite drop_length_app.
  destruct (lazy_dots_until close t) as [group|] eqn:Hgroup; [|done].
  apply lazy_dots_until_inv in Hgroup as [rest ->].
  intros [= <- <-]. split.
  { destruct open; [done|simpl; lia]. }
  intros a.
  replace (drop _ _) with rest.
  - rewrite <- !app_assoc.
    rewrite (inert_frame before after) by done.
    by rewrite (inert_frame open close) by by apply unprotected_inert.
  - rewrite <- Nat.add_assoc, <- !length_app.
    replace (open ++ group ++ close ++ rest)
      with ((open ++ group ++ close) ++ rest) by (by rewrite <- !app_assoc).
    by rewrite drop_length_app.
Qed.

Lemma exec_heading_keeps_count marker before after :
  marker <> [] -> unprotected_word marker = true ->
  inert before -> inert after ->
  keeps_count (exec_heading marker before after).
Proof.
  intros Hmarker Humarker Hbefore Hafter prev s n out. unfold exec_heading.
  destruct (at_line_start prev && startsWith s marker) eqn:Hs; [|done].
  apply andb_prop in Hs as [_ Hs].
  apply startsWith_inv in Hs as [t ->]. rewrite drop_length_app.
  destruct (rest_of_line_split t) as (rest & Ht & Hrest).
  set (group := rest_of_line t) in *. clearbody group. subst t.
  intros [= <- <-]. split.
  { destruct marker; [done|simpl; lia]. }
  intros a.
  replace (drop _ _) with rest.
  - rewrite <- !app_assoc.
    rewrite (inert_frame before after) by done.
    rewrite (unprotected_inert marker Hmarker Humarker a).
    destruct rest as [|c rest]; [rewrite app_nil_r; simpl; lia|].
    destruct (unprotected_split c Hrest) as [_ Hinner].
    rewrite (occurrences_cut c group) by done. lia.
  - rewrite <- length_app, app_assoc. by rewrite drop_length_app.
Qed.

Lemma occurrences_BR_here s :
  occurrences BR (BR ++ s) = S (occurrences BR s).
Proof. rewrite BR_units. reflexivity. Qed.

Lemma occurrences_BR_after a s :
  occurrences BR (a ++ BR ++ s)
    = (occurrences BR a + S (occurrences BR s))%nat.
Proof.
  pose proof (occurrences_cut 60 a ([98; 114; 47; 62] ++ s) eq_refl) as Hcut.
  change (a ++ 60 :: [98; 114; 47; 62] ++ s) with (a ++ BR ++ s) in Hcut.
  change (60 :: [98; 114; 47; 62] ++ s) with (BR ++ s) in Hcut.
  by rewrite Hcut, occurrences_BR_here.
Qed.

Lemma occurrences_LF_cons c s :
  occurrences LF (c :: s)
    = ((if N.eqb c 10 then 1 else 0) + occurrences LF s)%nat.
Proof.
  unfold LF. rewrite occurrences_cons. simpl. by rewrite andb_true_r.
Qed.

Lemma newline_to_br_count_from a s :
  occurrences BR (a ++ newline_to_br s)
    = (occurrences BR (a ++ s) + occurrences LF s)%nat.
Proof.
  rewrite newline_to_br_spec. revert a.
  induction s as [|c s IH]; intros a; [simpl; lia|].
  cbn [flat_map]. rewrite app_assoc, IH, <- app_assoc.
  rewrite occurrences_LF_cons.
  destruct (c =? 10) eqn:Hc; [|simpl; lia].
  apply N.eqb_eq in Hc as ->.
  rewrite (occurrences_cut 10 a s) by done.
  rewrite (occurrences_skip 10 s) by done.
  rewrite occurrences_BR_after. lia.
Qed.

(** *** No newline is left *)

Lemma free_of_app c s t :
  free_of c (s ++ t) = free_of c s && free_of c t.
Proof. apply forallb_app. Qed.

Lemma free_of_includes c s : free_of c s = true -> includes s [c] = false.
Proof.
  induction s as [|d s IH]; simpl; [done|].
  intros [Hd Hs]%andb_prop. rewrite (IH Hs), andb_true_r, orb_false_r.
  by apply negb_true_iff.
Qed.

Lemma replace_from_free c exec :
  keeps_out c exec ->
  forall s skip prev,
    free_of c s = true -> free_of c (replace_from exec skip prev s) = true.
Proof.
  intros Hexec. induction s as [|d rest IH]; intros skip prev Hs; [done|].
  pose proof Hs as [Hd Hrest]%andb_prop.
  destruct skip as [|skip]; simpl.
  - destruct (exec prev (d :: rest)) as [[n out]|] eqn:Hmatch.
    + rewrite free_of_app, (Hexec _ _ _ _ Hs Hmatch). by apply IH.
    + simpl. rewrite Hd. by apply IH.
  - by apply IH.
Qed.

Lemma exec_delimited_keeps_out c open close before after :
  free_of c before = true -> free_of c after = true ->
  keeps_out c (exec_delimited open close before after).
Proof.
  intros Hbefore Hafter prev s n out Hs. unfold exec_delimited.
  destruct (startsWith s open) eqn:Hopen; [|done].
  apply startsWith_inv in Hopen as [t ->]. rewrite drop_length_app.
  destruct (lazy_dots_until close t) as [group|] eqn:Hgroup; [|done].
  apply lazy_dots_until_inv in Hgroup as [rest ->].
  intros [= <- <-]. rewrite !free_of_app in Hs |- *.
  rewrite Hbefore, Hafter. simpl.
  apply andb_prop in Hs as [_ [Hgroup _]%andb_prop]. by rewrite Hgroup.
Qed.

Lemma exec_heading_keeps_out c marker before after :
  free_of c before = true -> free_of c after = true ->
  keeps_out c (exec_heading marker before after).
Proof.
  intros Hbefore Hafter prev s n out Hs. unfold exec_heading.
  destruct (at_line_start prev && startsWith s marker) eqn:Hmarker; [|done].
  apply andb_prop in Hmarker as [_ Hmarker].
  apply startsWith_inv in Hmarker as [t ->]. rewrite drop_length_app.
  destruct (rest_of_line_split t) as (rest & Ht & _).
  set (group := rest_of_line t) in *. clearbody group. subst t.
  intros [= <- <-]. rewrite !free_of_app in Hs |- *.
  rewrite Hbefore, Hafter. simpl.
  apply andb_prop in Hs as [_ [Hgroup _]%andb_prop]. by rewrite Hgroup.
Qed.

Lemma newline_to_br_free s : free_of 10 (newline_to_br s) = true.
Proof.
  rewrite newline_to_br_spec. induction s as [|c s IH]; [done|].
  cbn [flat_map]. rewrite free_of_app, IH, andb_true_r.
  destruct (c =? 10) eqn:Hc; [done|]. simpl. by rewrite Hc.
Qed.

End MarkdownFacts.

(* --------------------------------------------------------------------- *)
(** ** components/DocumentPreview.tsx                                     *)
(* --------------------------------------------------------------------- *)

Module DocumentPreviewFacts.
Import DocumentPreview PreviewResources.

(** *** A file that is neither a PDF nor an image *)

(** The effect stores the placeholder [File: <name>] in [preview], makes no
    object URL, starts no reader and leaves the browser (its requests
    included) as it was. *)
Lemma effect_other (f : File) (st : State) (w : Browser) :
  file_type f <> lit "application/pdf" ->
  startsWith (file_type f) (lit "image/") = false ->
  effect (Some f) st w
    = {| run_state := {| preview := Some (lit "File: " ++ file_name f);
                         fileURL := None |};
         run_browser := w; run_cleanup := None; run_reader := None |}.
Proof.
  intros Hpdf Himage. unfold effect.
  rewrite bool_decide_eq_false_2 by done. by rewrite Himage.
Qed.

(** Whatever [preview] holds, the body rendered for such a file is the
    sample text. *)
Lemma render_other (f : File) (st : State) :
  file_type f <> lit "application/pdf" ->
  startsWith (file_type f) (lit "image/") = false ->
  render {| file := Some f; isLoading := false |} st
    = Card (file_name f ++ lit " • " ++ size_kb (file_size f) ++ lit " KB")
           (Text sampleContent).
Proof.
  intros Hpdf Himage. unfold render, fallback_text. cbn [file isLoading].
  rewrite !bool_decide_eq_false_2 by done. by rewrite Himage.
Qed.

(** C2, evaluated on [notes.txt] of type [text/plain]: the effect computes
    the placeholder [File: notes.txt] and sends no request, but the rendered
    body is the sample text, which does not contain the file name. *)
Theorem preview_of_text_file :
  let '(inst, w) := mount (Some notes_txt) initial_browser in
  preview (state inst) = Some (lit "File: notes.txt")
  /\ requests w = []
  /\ object_urls w = ∅
  /\ render {| file := Some notes_txt; isLoading := false |} (state inst)
     = Card (lit "notes.txt • 0.0 KB") (Text sampleContent)
  /\ includes sampleContent (lit "notes.txt") = false
  /\ includes sampleContent (lit "File: ") = false.
Proof. by vm_compute. Qed.

(** *** Object URLs *)

Lemma at_most_one_more_size base w :
  at_most_one_more base w -> (size (object_urls w) <= S (size base))%nat.
Proof.
  intros [Hsame | (url & blob & Hfree & Hmore)]; [rewrite Hsame; lia|].
  rewrite Hmore, map_size_insert_None by done. lia.
Qed.

Lemma owns_at_most_one_more base c w :
  owns base c w -> at_most_one_more base w.
Proof.
  intros [_ Hc]. destruct c as [url|]; [|by left].
  destruct Hc as (Hfree & blob & Hmore). right. by exists url, blob.
Qed.

(** Calling the cleanup gives back the base store. *)
Lemma call_cleanup_owns base c w :
  owns base c w -> owns base None (call_cleanup c w).
Proof.
  intros [Hahead Hc]. destruct c as [url|]; [|done].
  destruct Hc as (Hfree & blob & Hstore). split; [done|]. simpl.
  rewrite Hstore, delete_insert_eq. by apply delete_id.
Qed.

(** An effect run from the base store owns what it made. *)
Lemma effect_owns base file st w :
  owns base None w ->
  owns base (run_cleanup (effect file st w)) (run_browser (effect file st w)).
Proof.
  intros [Hahead Hstore]. unfold effect.
  destruct file as [f|]; [|done].
  case_bool_decide; [|by destruct (startsWith _ _)].
  simpl. split.
  - intros url Hurl. apply Hahead. simpl in Hurl. lia.
  - split; [apply Hahead; lia|]. exists (File_blob f). simpl.
    by rewrite Hstore.
Qed.

Section Runs.
Variable same_file : option File -> option File -> bool.

Lemma mount_owns base file w :
  owns base None w ->
  owns base (cleanup (mount file w).1) (mount file w).2.
Proof. apply effect_owns. Qed.

Lemma update_owns base file inst w :
  owns base (cleanup inst) w ->
  at_most_one_more base (update same_file file inst w).1
  /\ owns base (cleanup (update same_file file inst w).2.1)
                (update same_file file inst w).2.2
  /\ (same_file (dependency inst) file = false ->
      object_urls (update same_file file inst w).1 = base).
Proof.
  intros Howns. unfold update.
  destruct (same_file (dependency inst) file); simpl.
  - split; [by eapply owns_at_most_one_more|]. by split.
  - pose proof (call_cleanup_owns _ _ _ Howns) as Hclean.
    split; [by eapply owns_at_most_one_more|].
    split; [by apply effect_owns|]. intros _. apply Hclean.
Qed.

Lemma selections_owns base files inst w :
  owns base (cleanup inst) w ->
  Forall (at_most_one_more base) (selections same_file files inst w).1
  /\ owns base (cleanup (selections same_file files inst w).2.1)
                (selections same_file files inst w).2.2.
Proof.
  revert inst w. induction files as [|f files IH]; intros inst w Howns.
  - by split.
  - simpl. destruct (update_owns base f inst w Howns) as (Hmid & Hnext & _).
    destruct (update same_file f inst w) as [w1 [inst' w']].
    destruct (IH inst' w' Hnext) as [Hseen Hfinal].
    destruct (selections same_file files inst' w') as [seen final].
    split; [|done]. constructor; [done|]. constructor; [|done].
    by eapply owns_at_most_one_more.
Qed.

(** C8: through a whole life of the preview (first render, any number of
    selections, teardown), started in a browser whose store is [base], the
    store never holds more than one URL beyond [base]; the cleanup that runs
    when the file changes leaves exactly [base]; and after the teardown the
    store is [base] again.  From an empty store: never more than one live
    URL, and none at the end. *)
Theorem preview_urls_released (first : option File)
  (files : list (option File)) (w0 : Browser) :
  ahead (object_urls w0) w0 ->
  let base := object_urls w0 in
  let worlds := lifetime same_file first files w0 in
  Forall (at_most_one_more base) worlds
  /\ Forall (fun w => (size (object_urls w) <= S (size base))%nat) worlds
  /\ object_urls <$> last worlds = Some base
  /\ (forall next,
        let '(inst, w) := (selections same_file files
                             (mount first w0).1 (mount first w0).2).2 in
        same_file (dependency inst) next = false ->
        object_urls (update same_file next inst w).1 = base).
Proof.
  intros Hahead base worlds.
  assert (owns base None w0) as Hstart by done.
  pose proof (mount_owns base first w0 Hstart) as Hmount.
  assert (Forall (at_most_one_more base) worlds
          /\ object_urls <$> last worlds = Some base) as [Hall Hlast].
  { subst worlds. unfold lifetime.
    destruct (mount first w0) as [inst w1]. simpl in Hmount.
    destruct (selections_owns base files inst w1 Hmount) as [Hseen Hfinal].
    destruct (selections same_file files inst w1) as [seen [inst' w']].
    simpl in Hseen, Hfinal.
    pose proof (call_cleanup_owns _ _ _ Hfinal) as [_ Hend].
    split.
    - constructor; [by eapply owns_at_most_one_more|].
      apply Forall_app. split; [done|]. constructor; [|done]. by left.
    - rewrite app_comm_cons, last_snoc. simpl. by f_equal. }
  split; [done|]. split; [|split; [done|]].
  - eapply Forall_impl; [exact Hall|]. apply at_most_one_more_size.
  - intros next.
    destruct (mount first w0) as [inst w1]. simpl in Hmount |- *.
    destruct (selections_owns base files inst w1 Hmount) as [_ Hfinal].
    destruct (selections same_file files inst w1) as [seen [inst' w']].
    simpl in Hfinal |- *. intros Hchanged.
    by apply (update_owns base next inst' w' Hfinal).
Qed.

End Runs.

Lemma preview_urls_released_witness :
  Forall (fun w => (size (object_urls w) <= 1)%nat)
    (lifetime fresh_objects (Some report_pdf)
       [Some notes_txt; Some report_pdf; Some report_pdf; None]
       initial_browser)
  /\ object_urls <$>
       last (lifetime fresh_objects (Some report_pdf)
               [Some notes_txt; Some report_pdf; Some report_pdf; None]
               initial_browser) = Some ∅.
Proof.
  destruct (preview_urls_released fresh_objects (Some report_pdf)
              [Some notes_txt; Some report_pdf; Some report_pdf; None]
              initial_browser) as (_ & Hsize & Hlast & _).
  - intros url _. reflexivity.
  - split; [exact Hsize | exact Hlast].
Defined.

End DocumentPreviewFacts.

(* --------------------------------------------------------------------- *)
(** ** services/api.ts: edge cases of the response handling               *)
(* --------------------------------------------------------------------- *)

Module ApiEdgeFacts.
Import Api.
Section ApiEdgeFacts.
Context `{Engine}.

Lemma bind_Ok_inv {A B} (r : result A) (k : A -> result B) (b : B) :
  r ≫= k = Ok b -> exists a, r = Ok a /\ k a = Ok b.
Proof. destruct r as [a|e]; [|done]. intros Hk. by exists a. Qed.

Lemma handleResponse_not_ok (response : Response) :
  ok response = false -> status response <> 422 ->
  handleResponse response
    = Throw (Error (lit "HTTP " ++ decimal (status response)
                    ++ lit ": " ++ statusText response)).
Proof.
  intros Hok Hstatus%N.eqb_neq. unfold handleResponse.
  by rewrite Hok, Hstatus.
Qed.

Lemma handleResponse_Ok_inv (response : Response) (v : value) :
  handleResponse response = Ok v ->
  ok response = true /\ json_body response = Ok v.
Proof.
  unfold handleResponse. destruct (ok response); simpl; [done|].
  destruct (status response =? 422); [|done].
  intros Hb.
  repeat (apply bind_Ok_inv in Hb as (? & _ & Hb)). discriminate.
Qed.

(** X1: [handleResponse] resolves exactly when the status is in 200-299 and
    the body parses, and then to the parsed body; in every other case
    (the 422 branch included) it rejects. *)
Theorem handleResponse_resolves (response : Response) (v : value) :
  handleResponse response = Ok v
  <-> ok response = true /\ json_body response = Ok v.
Proof.
  split; [apply handleResponse_Ok_inv|].
  intros [Hok Hbody]. unfold handleResponse. by rewrite Hok.
Qed.

(** X2: on a 422 response whose body is not JSON the rejection of
    [response.json()] is what the handler rejects with, and on a body that is
    the JSON [null] it is the engine's [TypeError] for reading [detail]: in
    neither case a validation message. *)
Theorem handleResponse_422_without_object (response : Response) :
  status response = 422 ->
  (forall e, json_body response = Throw e -> handleResponse response = Throw e)
  /\ (json_body response = Ok VNull ->
      handleResponse response
        = Throw (TypeError (null_property_message (lit "detail")))).
Proof.
  intros Hstatus. unfold handleResponse, ok. rewrite Hstatus.
  split; [by intros e -> | by intros ->].
Qed.

(** X3: on a 422 response the fallback [Validation Error: Invalid input] is
    also what is thrown when [detail] is a string (whatever it says), and when
    the first entry of the [detail] list has no [msg] or a falsy one (empty
    string, [null], [false], zero). *)
Theorem handleResponse_422_fallback (response : Response) properties :
  status response = 422 ->
  json_body response = Ok (VObj properties) ->
  (forall s,
     own_property properties (lit "detail") = Some (VStr s) ->
     handleResponse response
       = Throw (Error (lit "Validation Error: Invalid input")))
  /\ (forall entry rest,
        own_property properties (lit "detail")
          = Some (VArr (VObj entry :: rest)) ->
        truthy (default VUndefined (own_property entry (lit "msg"))) = false ->
        handleResponse response
          = Throw (Error (lit "Validation Error: Invalid input"))).
Proof.
  intros Hstatus Hbody.
  rewrite (ApiFacts.handleResponse_422_object _ _ Hstatus Hbody). split.
  - intros s ->. by destruct s.
  - intros entry rest -> Hfalsy. simpl. unfold or_else.
    by rewrite Hfalsy.
Qed.

(** X4: [getPrompts] sends one GET request and resolves only if the answer
    has a status in 200-299 and a body that parses, to the [prompts] member
    of that body; when the body is an object without [prompts] it resolves to
    [undefined] instead of failing. *)
Theorem getPrompts_result (net : Request -> result Response) (w : Browser) :
  requests (getPrompts net w).1 = requests w ++ [getPrompts_request]
  /\ (forall v,
        (getPrompts net w).2 = Ok v ->
        exists response body,
          net getPrompts_request = Ok response
          /\ ok response = true
          /\ json_body response = Ok body
          /\ Get body (lit "prompts") = Ok v)
  /\ (forall response properties,
        net getPrompts_request = Ok response ->
        ok response = true ->
        json_body response = Ok (VObj properties) ->
        own_property properties (lit "prompts") = None ->
        (getPrompts net w).2 = Ok VUndefined).
Proof.
  unfold getPrompts, fetch. simpl. split; [done|]. split.
  - intros v Hv.
    apply bind_Ok_inv in Hv as (response & Hnet & Hv).
    apply bind_Ok_inv in Hv as (body & Hbody & Hv).
    apply handleResponse_Ok_inv in Hbody as [Hok Hbody].
    by exists response, body.
  - intros response properties -> Hok Hbody Hmissing. simpl.
    rewrite (ApiFacts.handleResponse_success _ Hok), Hbody. simpl.
    by rewrite Hmissing.
Qed.

End ApiEdgeFacts.

Lemma handleResponse_resolves_witness :
  handleResponse
    {| status := 200; statusText := lit "OK";
       json_body := Ok (VStr (lit "pong")) |} = Ok (VStr (lit "pong")).
Proof.
  apply (proj2 (handleResponse_resolves
                  {| status := 200; statusText := lit "OK";
                     json_body := Ok (VStr (lit "pong")) |}
                  (VStr (lit "pong")))).
  split; reflexivity.
Defined.

Lemma handleResponse_422_without_object_witness :
  handleResponse (unprocessable VNull)
    = Throw (TypeError (null_property_message (lit "detail"))).
Proof.
  apply (proj2 (handleResponse_422_without_object (unprocessable VNull)
                  eq_refl)).
  reflexivity.
Defined.

Lemma handleResponse_422_fallback_witness :
  handleResponse
    (unprocessable (VObj [(lit "detail", VStr (lit "File too large"))]))
    = Throw (Error (lit "Validation Error: Invalid input")).
Proof.
  apply (proj1 (handleResponse_422_fallback
                  (unprocessable
                     (VObj [(lit "detail", VStr (lit "File too large"))]))
                  _ eq_refl eq_refl) (lit "File too large")).
  reflexivity.
Defined.

Lemma getPrompts_result_witness :
  (getPrompts
     (fun _ => Ok {| status := 200; statusText := lit "OK";
                     json_body := Ok (VObj []) |})
     initial_browser).2 = Ok VUndefined.
Proof.
  destruct (getPrompts_result
              (fun _ => Ok {| status := 200; statusText := lit "OK";
                              json_body := Ok (VObj []) |})
              initial_browser) as (_ & _ & Hmissing).
  apply (Hmissing _ [] eq_refl eq_refl eq_refl eq_refl).
Defined.

End ApiEdgeFacts.

(* --------------------------------------------------------------------- *)
(** ** The assembled interface                                            *)
(* --------------------------------------------------------------------- *)

Module AppFacts.
Import App AppInvariant.
Section AppFacts.
Context `{Engine}.

Lemma loadPrompts_settled_file outcome sb w :
  Sidebar.selectedFile (Sidebar.loadPrompts_settled outcome sb w).1
    = Sidebar.selectedFile sb.
Proof. destruct outcome as [[|first rest]|e]; reflexivity. Qed.

Lemma initial_consistent : consistent initial.
Proof. repeat split; simpl; try done; lia. Qed.

Lemma deliver_onFileSelect_consistent app sb file :
  consistent app ->
  Sidebar.selectedFile sb = Some file ->
  consistent
    (deliver {| sidebar := sb; main := main app;
                in_flight := in_flight app; browser := browser app |}
             (Sidebar.onFileSelect file)).
Proof.
  intros (Hone & Hloading & Houtput & Hmirror) Hfile.
  repeat split; simpl; try done; try apply Hloading.
  intros f. rewrite Hfile. by intros [= ->].
Qed.

Lemma sidebar_only_consistent app sb :
  consistent app ->
  (forall f, Sidebar.selectedFile sb = Some f ->
             Sidebar.selectedFile (sidebar app) = Some f) ->
  consistent {| sidebar := sb; main := main app;
                in_flight := in_flight app; browser := browser app |}.
Proof.
  intros (Hone & Hloading & Houtput & Hmirror) Hfile.
  repeat split; simpl; try done; try apply Hloading; try by apply Houtput.
  intros f Hf. by apply Hmirror, Hfile.
Qed.

Lemma step_consistent app e : consistent app -> consistent (step app e).
Proof.
  intros Happ. pose proof Happ as (Hone & Hloading & Houtput & Hmirror).
  destruct e as [files| | |value|outcome| |outcome]; unfold step.
  - unfold Sidebar.handleFileUpload. destruct (head files) as [file|].
    + by apply deliver_onFileSelect_consistent.
    + by apply sidebar_only_consistent.
  - by apply deliver_onFileSelect_consistent.
  - by apply sidebar_only_consistent.
  - destruct (_ || _); [done|]. by apply sidebar_only_consistent.
  - pose proof (loadPrompts_settled_file outcome (sidebar app) (browser app))
      as Hfile.
    destruct (Sidebar.loadPrompts_settled _ _ _) as [sb w]. simpl in Hfile.
    destruct Happ as (? & ? & ? & ?).
    repeat split; simpl; try done; try by apply Hloading.
    intros f. rewrite Hfile. apply Hmirror.
  - unfold Sidebar.click_parse.
    destruct (Sidebar.parse_disabled _ _) eqn:Hdisabled.
    { by apply sidebar_only_consistent. }
    apply SidebarFacts.parse_disabled_false in Hdisabled
      as (_ & _ & Hidle & _).
    unfold Sidebar.handleParseClick.
    destruct (Sidebar.selectedFile (sidebar app)) as [file|] eqn:Hfile;
      [|by apply sidebar_only_consistent].
    destruct (negb _); [|by apply sidebar_only_consistent].
    assert (in_flight app = []) as Hnone.
    { destruct (in_flight app) as [|x l] eqn:Hl; [done|].
      assert (OCRInterface.isLoading (main app) = true) as Hbusy
        by by apply Hloading.
      congruence. }
    unfold after_sidebar. simpl. rewrite Hnone.
    repeat split; simpl; try done; try lia.
    intros f. rewrite Hfile. apply Hmirror.
  - destruct (in_flight app) as [|x rest] eqn:Hflight; [done|].
    assert (rest = []) as -> by (destruct rest; [done|simpl in Hone; lia]).
    assert (OCRInterface.isLoading (main app) = true) as Hbusy
      by by apply Hloading.
    pose proof (OCRInterfaceFacts.handleParse_settled_state outcome
                  (main app) (browser app)) as Hstate.
    destruct (OCRInterface.handleParse_settled _ _ _) as [st w].
    simpl in Hstate. subst st.
    destruct outcome as [resolved|error].
    + repeat split; simpl; try done; lia.
    + split; [simpl; lia|]. split; [by split|]. split; [|exact Hmirror].
      simpl. intros Hout. pose proof (Houtput Hout) as Hidle. congruence.
Qed.

Lemma run_consistent events app :
  consistent app -> consistent (run events app).
Proof.
  revert app. induction events as [|e events IH]; intros app Happ; [done|].
  apply IH. by apply step_consistent.
Qed.

Lemma handleParse_settled_requests outcome st w :
  requests (OCRInterface.handleParse_settled outcome st w).2 = requests w.
Proof. by destruct outcome. Qed.

(** X5: in every state the interface can reach, at most one parse call is in
    flight, and [isLoading] is true exactly while one is. *)
Theorem single_parse_in_flight (events : list event) :
  let app := run events initial in
  (length (in_flight app) <= 1)%nat
  /\ (OCRInterface.isLoading (main app) = true <-> in_flight app <> []).
Proof.
  destruct (run_consistent events initial initial_consistent)
    as (Hone & Hloading & _).
  by split.
Qed.

(** X6: in every reachable state, a file held by the sidebar is the file the
    orchestrator holds and passes to the preview. *)
Theorem sidebar_file_is_previewed (events : list event) (f : File) :
  Sidebar.selectedFile (sidebar (run events initial)) = Some f ->
  DocumentPreview.file (preview_props (run events initial)) = Some f.
Proof.
  destruct (run_consistent events initial initial_consistent)
    as (_ & _ & _ & Hmirror).
  apply Hmirror.
Qed.

(** X7: in every reachable state, when [hasOutput] is set nothing is
    loading.  The flag does not tell that a response is stored: when the call
    in flight resolves to [null] (an answer with status 200 and the body
    [null]) the success path runs all the same, [hasOutput] is set while
    [outputData] is null, and the panel, handed null for the data and the
    metadata, shows the sample texts. *)
Theorem output_flag_without_response (events : list event) (tab : jsstring) :
  let app := run events initial in
  (OutputPanel.hasOutput (output_props app) = true ->
   OutputPanel.isLoading (output_props app) = false)
  /\ (in_flight app <> [] ->
      let app' := step app (ParseSettled (Ok None)) in
      OCRInterface.hasOutput (main app') = true
      /\ OCRInterface.isLoading (main app') = false
      /\ OCRInterface.outputData (main app') = None
      /\ OutputPanel.outputData (output_props app') = None
      /\ OutputPanel.render (output_props app') tab
         = OutputPanel.Card tab
             (OutputPanel.Panes
                (OutputPanel.formatMarkdownForDisplay
                   OutputPanel.sampleMarkdown)
                OutputPanel.sampleRawText
                None)).
Proof.
  destruct (run_consistent events initial initial_consistent)
    as (_ & _ & Houtput & _).
  split; [exact Houtput|].
  intros Hbusy. unfold step.
  destruct (in_flight (run events initial)) as [|x rest]; [done|].
  by repeat split.
Qed.

(** X8: in every reachable state with a parse call in flight, the output
    panel shows the processing notice, the Parse button is disabled, and the
    preview of the held file shows its loading notice whatever its own state
    is. *)
Theorem parse_in_flight_views (events : list event) (tab : jsstring)
  (st : DocumentPreview.State) :
  let app := run events initial in
  in_flight app <> [] ->
  OutputPanel.render (output_props app) tab
    = OutputPanel.Card tab OutputPanel.Processing
  /\ parse_button_disabled app = true
  /\ (forall f,
        OCRInterface.selectedFile (main app) = Some f ->
        exists header,
          DocumentPreview.render (preview_props app) st
            = DocumentPreview.Card header DocumentPreview.LoadingDocument).
Proof.
  destruct (run_consistent events initial initial_consistent)
    as (_ & Hloading & _).
  simpl. intros Hbusy%Hloading. split; [|split].
  - unfold OutputPanel.render. simpl. rewrite Hbusy.
    by rewrite andb_false_r.
  - unfold parse_button_disabled, Sidebar.parse_disabled. rewrite Hbusy.
    by rewrite orb_true_r.
  - intros f Hf. unfold DocumentPreview.render, preview_props. simpl.
    rewrite Hf, Hbusy. by eexists.
Qed.

(** X9: when the call in flight resolves with a response whose markdown and
    raw text are not empty, the output panel shows the formatted markdown of
    that response, its raw text and its metadata. *)
Theorem parse_success_is_rendered (app : State) (r : Api.ParseResponse)
  (tab : jsstring) :
  in_flight app <> [] ->
  Api.markdown (Api.data r) <> [] ->
  Api.rawText (Api.data r) <> [] ->
  OutputPanel.render (output_props (step app (ParseSettled (Ok (Some r))))) tab
    = OutputPanel.Card tab
        (OutputPanel.Panes
           (OutputPanel.formatMarkdownForDisplay (Api.markdown (Api.data r)))
           (Api.rawText (Api.data r))
           (Some (Api.metadata r))).
Proof.
  intros Hbusy Hmd Hraw. unfold step.
  destruct (in_flight app) as [|x rest]; [done|]. simpl.
  unfold OutputPanel.render. simpl.
  destruct (OutputPanelFacts.content_real
              (output_props
                 {| sidebar := sidebar app;
                    main := OCRInterface.setIsLoading false
                              (OCRInterface.setHasOutput true
                                 (OCRInterface.setOutputData (Some r)
                                    (main app)));
                    in_flight := rest;
                    browser := browser app |})
              (Api.data r) eq_refl) as [Hmarkdown Hrawtext].
  simpl in Hmarkdown, Hrawtext.
  unfold OutputPanel.markdownContent, OutputPanel.rawTextContent in *.
  simpl in *. by rewrite (Hmarkdown Hmd), (Hrawtext Hraw).
Qed.

(** X10: choosing a file while nothing loads makes the output panel fall back
    to its invitation, although the stored response is kept; the sidebar and
    the preview now hold the chosen file (the first one of the selection). *)
Theorem choosing_a_file_hides_output (app : State) (file : File)
  (files : list File) (tab : jsstring) :
  OCRInterface.isLoading (main app) = false ->
  let app' := step app (FilesChosen (file :: files)) in
  OutputPanel.render (output_props app') tab = OutputPanel.NoOutput
  /\ OCRInterface.outputData (main app') = OCRInterface.outputData (main app)
  /\ Sidebar.selectedFile (sidebar app') = Some file
  /\ DocumentPreview.file (preview_props app') = Some file.
Proof.
  intros Hidle. simpl. repeat split.
  unfold OutputPanel.render. simpl. by rewrite Hidle.
Qed.

(** X11: in every reachable state with a call in flight, when that call
    rejects the interface is idle again: the output panel shows its
    invitation, no call is in flight, and if the sidebar holds a file and a
    prompt the Parse button is enabled and a click on it sends a new request
    for that file and prompt. *)
Theorem failure_leaves_resubmittable (events : list event) (e : thrown)
  (f : File) (tab : jsstring) :
  let app := run events initial in
  in_flight app <> [] ->
  Sidebar.selectedFile (sidebar app) = Some f ->
  Sidebar.selectedPrompt (sidebar app) <> [] ->
  Sidebar.loadingPrompts (sidebar app) = false ->
  let app1 := step app (ParseSettled (Throw e)) in
  let app2 := step app1 ParseClicked in
  OutputPanel.render (output_props app1) tab = OutputPanel.NoOutput
  /\ in_flight app1 = []
  /\ parse_button_disabled app1 = false
  /\ in_flight app2 = [(f, Sidebar.selectedPrompt (sidebar app))]
  /\ requests (browser app2)
     = requests (browser app)
       ++ [Api.parseDocument_request f (Sidebar.selectedPrompt (sidebar app))].
Proof.
  destruct (run_consistent events initial initial_consistent)
    as (Hone & Hloading & Houtput & _).
  set (app := run events initial) in *. simpl.
  intros Hbusy Hfile Hprompt Hloaded.
  assert (OCRInterface.hasOutput (main app) = false) as Hnone.
  { apply not_true_is_false. intros Hout.
    pose proof (Houtput Hout) as Hidle.
    apply Hloading in Hbusy. congruence. }
  destruct (in_flight app) as [|x rest] eqn:Hflight; [done|].
  assert (rest = []) as -> by (destruct rest; [done|simpl in Hone; lia]).
  assert (parse_button_disabled
            {| sidebar := sidebar app;
               main := OCRInterface.setIsLoading false (main app);
               in_flight := [];
               browser := (OCRInterface.handleParse_settled (Throw e)
                             (main app) (browser app)).2 |} = false)
    as Henabled.
  { unfold parse_button_disabled, Sidebar.parse_disabled. simpl.
    rewrite Hfile, Hloaded.
    rewrite (bool_decide_eq_true_2 (is_Some (Some f))) by by eexists.
    by rewrite bool_decide_eq_false_2. }
  split; [|split; [done|split; [exact Henabled|]]].
  - unfold OutputPanel.render. simpl. by rewrite Hnone.
  - unfold Sidebar.click_parse.
    unfold parse_button_disabled in Henabled. simpl in Henabled.
    cbn [sidebar main OCRInterface.isLoading OCRInterface.setIsLoading].
    rewrite Henabled. unfold Sidebar.handleParseClick. rewrite Hfile.
    rewrite bool_decide_eq_false_2 by done. by split.
Qed.

(** X12: while no prompts are loaded and none is selected, nothing the user
    does enables the Parse button or sends a request: the prompt list is
    fetched once and a failed fetch is not retried. *)
Theorem no_prompts_no_parse (app : State) (events : list event) :
  Sidebar.prompts (sidebar app) = [] ->
  Sidebar.selectedPrompt (sidebar app) = [] ->
  forallb user_event events = true ->
  parse_button_disabled (run events app) = true
  /\ requests (browser (run events app)) = requests (browser app)
  /\ Sidebar.prompts (sidebar (run events app)) = [].
Proof.
  revert app. induction events as [|ev events IH]; intros app Hnone Hprompt.
  - intros _. change (run [] app) with app. split; [|done].
    unfold parse_button_disabled, Sidebar.parse_disabled.
    rewrite Hprompt. simpl. by rewrite orb_true_r.
  - change (run (ev :: events) app) with (run events (step app ev)).
    simpl. intros [Huser Hrest]%andb_prop.
    assert (Sidebar.prompts (sidebar (step app ev)) = []
            /\ Sidebar.selectedPrompt (sidebar (step app ev)) = []
            /\ requests (browser (step app ev)) = requests (browser app))
      as (Hnone' & Hprompt' & Hreq).
    { destruct ev as [files| | |value|outcome| |outcome]; unfold step;
        try done.
      - unfold Sidebar.handleFileUpload. by destruct (head files).
      - rewrite Hnone.
        rewrite (bool_decide_eq_false_2 (value ∈ Api.id <$> []))
          by apply not_elem_of_nil.
        by rewrite orb_true_r.
      - assert (Sidebar.click_parse (sidebar app)
                  (OCRInterface.isLoading (main app)) = []) as ->; [|done].
        unfold Sidebar.click_parse, Sidebar.parse_disabled.
        rewrite Hprompt. simpl. by rewrite orb_true_r.
      - destruct (in_flight app); [done|].
        pose proof (handleParse_settled_requests outcome (main app)
                      (browser app)) as Hsame.
        by destruct (OCRInterface.handleParse_settled _ _ _). }
    destruct (IH (step app ev) Hnone' Hprompt' Hrest) as (Hdis & Hreq' & Hp).
    split; [done|]. split; [congruence | done].
Qed.

End AppFacts.

Section ParseErrors.
Context `{Engine}.
Variable as_ParseResponse : value -> Api.ParseResponse.
Variable net : Request -> result Api.Response.

(** X13: what [handleParse] tells the user when the call fails.  For an
    answer with a status outside 200-299 other than 422 the toast reads
    [HTTP <status>: <statusText>]; when [fetch] itself rejects with an
    [Error] the toast carries the message of that error, otherwise the fixed
    text; in each case one destructive toast titled [Parse Error] is added
    and the state is idle without output. *)
Theorem parse_failure_is_reported (file : File) (promptId : jsstring)
  (st : OCRInterface.State) (w : Browser) :
  let after :=
    OCRInterface.handleParse (parseDocument as_ParseResponse net)
      file promptId st w in
  let shown description :=
    toasts after.2
    = toasts w ++ [{| toast_title := lit "Parse Error";
                      toast_description := description;
                      toast_variant := Some (lit "destructive") |}]
    /\ OCRInterface.hasOutput after.1 = false
    /\ OCRInterface.isLoading after.1 = false in
  (forall response,
     net (Api.parseDocument_request file promptId) = Ok response ->
     Api.ok response = false ->
     Api.status response <> 422 ->
     shown (lit "HTTP " ++ decimal (Api.status response)
            ++ lit ": " ++ Api.statusText response))
  /\ (forall name message,
        net (Api.parseDocument_request file promptId)
          = Throw (ErrorObject name message) ->
        shown message)
  /\ (net (Api.parseDocument_request file promptId) = Throw NonError ->
      shown (lit "Failed to parse document")).
Proof.
  unfold OCRInterface.handleParse, parseDocument, Api.parseDocument,
    Api.fetch. simpl.
  split; [|split].
  - intros response -> Hok Hstatus. simpl.
    by rewrite (ApiEdgeFacts.handleResponse_not_ok _ Hok Hstatus).
  - by intros name message ->.
  - by intros ->.
Qed.

End ParseErrors.

Lemma sidebar_file_is_previewed_witness :
  DocumentPreview.file (preview_props (run ready_to_parse initial))
    = Some Sidebar.mockFile.
Proof. apply (sidebar_file_is_previewed ready_to_parse). reflexivity. Defined.

Lemma output_flag_without_response_witness :
  let app := step (run (ready_to_parse ++ [ParseClicked]) initial)
                  (ParseSettled (Ok None)) in
  OCRInterface.hasOutput (main app) = true
  /\ OCRInterface.outputData (main app) = None
  /\ OutputPanel.render (output_props app) (lit "markdown")
     = OutputPanel.Card (lit "markdown")
         (OutputPanel.Panes
            (OutputPanel.formatMarkdownForDisplay OutputPanel.sampleMarkdown)
            OutputPanel.sampleRawText
            None).
Proof.
  destruct (proj2 (output_flag_without_response
                     (ready_to_parse ++ [ParseClicked]) (lit "markdown")))
    as (Hflag & _ & Hdata & _ & Hview).
  - vm_compute. discriminate.
  - split; [exact Hflag|]. split; [exact Hdata|exact Hview].
Defined.

Lemma parse_in_flight_views_witness :
  parse_button_disabled (run (ready_to_parse ++ [ParseClicked]) initial)
    = true.
Proof.
  apply (parse_in_flight_views (ready_to_parse ++ [ParseClicked])
           (lit "markdown") DocumentPreview.initial).
  vm_compute. discriminate.
Defined.

Lemma parse_success_is_rendered_witness :
  OutputPanel.render
    (output_props
       (step (run (ready_to_parse ++ [ParseClicked]) initial)
             (ParseSettled (Ok (Some invoice_response)))))
    (lit "raw")
  = OutputPanel.Card (lit "raw")
      (OutputPanel.Panes
         (OutputPanel.formatMarkdownForDisplay (lit "# Invoice"))
         (lit "Invoice")
         (Some (Api.metadata invoice_response))).
Proof.
  apply (parse_success_is_rendered
           (run (ready_to_parse ++ [ParseClicked]) initial)
           invoice_response (lit "raw")).
  - vm_compute. discriminate.
  - discriminate.
  - discriminate.
Defined.

Lemma choosing_a_file_hides_output_witness :
  OutputPanel.render
    (output_props
       (step (run (ready_to_parse
                   ++ [ParseClicked; ParseSettled (Ok (Some invoice_response))])
                  initial)
             (FilesChosen [notes_txt])))
    (lit "markdown")
  = OutputPanel.NoOutput.
Proof.
  apply (choosing_a_file_hides_output
           (run (ready_to_parse
                 ++ [ParseClicked; ParseSettled (Ok (Some invoice_response))])
                initial)
           notes_txt [] (lit "markdown")).
  reflexivity.
Defined.

Lemma failure_leaves_resubmittable_witness :
  in_flight
    (step (step (run (ready_to_parse ++ [ParseClicked]) initial)
                (ParseSettled (Throw (Error (lit "HTTP 500: ")))))
          ParseClicked)
  = [(Sidebar.mockFile, lit "layout")].
Proof.
  apply (failure_leaves_resubmittable (ready_to_parse ++ [ParseClicked])
           (Error (lit "HTTP 500: ")) Sidebar.mockFile (lit "markdown")).
  - vm_compute. discriminate.
  - reflexivity.
  - vm_compute. discriminate.
  - reflexivity.
Defined.

Lemma no_prompts_no_parse_witness :
  parse_button_disabled
    (run [ExampleChosen; PromptChosen (lit "layout"); ParseClicked]
         (step initial (PromptsSettled (Throw (Error (lit "HTTP 503: "))))))
  = true.
Proof.
  apply (no_prompts_no_parse
           (step initial (PromptsSettled (Throw (Error (lit "HTTP 503: ")))))
           [ExampleChosen; PromptChosen (lit "layout"); ParseClicked]);
    reflexivity.
Defined.

Lemma parse_failure_is_reported_witness :
  toasts
    (OCRInterface.handleParse
       (parseDocument (fun _ => invoice_response) (fun _ => Ok not_found))
       notes_txt (lit "layout") OCRInterface.initial initial_browser).2
  = [{| toast_title := lit "Parse Error";
        toast_description := lit "HTTP 404: Not Found";
        toast_variant := Some (lit "destructive") |}].
Proof.
  destruct (parse_failure_is_reported (fun _ => invoice_response)
              (fun _ => Ok not_found) notes_txt (lit "layout")
              OCRInterface.initial initial_browser) as (Hhttp & _).
  apply (Hhttp not_found eq_refl eq_refl). discriminate.
Defined.

End AppFacts.

(* --------------------------------------------------------------------- *)
(** ** components/OutputPanel.tsx: what the substitutions do to a text    *)
(* --------------------------------------------------------------------- *)

Module MarkdownShapeFacts.
Import OutputPanel LineBreaks Lines.

(** *** Generalities on the scan *)

Lemma replace_from_prev exec :
  (forall p p' t, exec p t = exec p' t) ->
  forall s skip prev prev',
    replace_from exec skip prev s = replace_from exec skip prev' s.
Proof.
  intros Hexec. induction s as [|c s IH]; intros skip prev prev'; [done|].
  destruct skip as [|skip]; simpl; [|apply IH].
  rewrite (Hexec prev prev'). by destruct (exec prev' (c :: s)) as [[n out]|].
Qed.

Lemma replace_from_skip_all exec s skip prev :
  (length s <= skip)%nat -> replace_from exec skip prev s = [].
Proof.
  revert skip prev. induction s as [|c s IH]; intros skip prev Hskip; [done|].
  destruct skip as [|skip]; simpl in *; [lia|]. apply IH. lia.
Qed.

Lemma replace_from_skip_app exec u b prev :
  exists prev',
    replace_from exec (length u) prev (u ++ b) = replace_from exec 0 prev' b.
Proof.
  revert prev. induction u as [|c u IH]; intros prev; simpl.
  - by exists prev.
  - apply IH.
Qed.

Lemma free_of_cons c d s :
  free_of c (d :: s) = true -> (d =? c) = false /\ free_of c s = true.
Proof. simpl. by intros [?%negb_true_iff ?]%andb_prop. Qed.

Lemma one_line_app s t : one_line (s ++ t) = one_line s && one_line t.
Proof. apply forallb_app. Qed.

Lemma one_line_cons c s :
  one_line (c :: s) = true -> LineTerminator c = false /\ one_line s = true.
Proof. simpl. by intros [?%negb_true_iff ?]%andb_prop. Qed.

Lemma one_line_free_LF s : one_line s = true -> free_of 10 s = true.
Proof.
  induction s as [|c s IH]; [done|].
  intros [Hc Hs]%one_line_cons. simpl. rewrite (IH Hs), andb_true_r.
  unfold LineTerminator in Hc. by destruct (c =? 10).
Qed.

Lemma free_of_one_line s :
  free_of 10 s = true -> free_of 13 s = true ->
  free_of 8232 s = true -> free_of 8233 s = true ->
  one_line s = true.
Proof.
  induction s as [|c s IH]; [done|].
  intros [H10 ?]%free_of_cons [H13 ?]%free_of_cons
         [H8232 ?]%free_of_cons [H8233 ?]%free_of_cons.
  simpl. unfold LineTerminator. rewrite H10, H13, H8232, H8233. simpl.
  by apply IH.
Qed.

Lemma startsWith_head s p q :
  startsWith s (p :: q) = true -> startsWith s [p] = true.
Proof.
  destruct s as [|c s]; simpl; [done|].
  intros [-> _]%andb_prop. done.
Qed.

Lemma startsWith_not_head s p q :
  startsWith s [p] = false -> startsWith s (p :: q) = false.
Proof.
  intros Hs. apply not_true_is_false. intros Hq%startsWith_head. congruence.
Qed.

(** *** The first substitution *)

Lemma newline_to_br_app s t :
  newline_to_br (s ++ t) = newline_to_br s ++ newline_to_br t.
Proof. rewrite !MarkdownFacts.newline_to_br_spec. apply flat_map_app. Qed.

Lemma newline_to_br_plain s :
  free_of 10 s = true -> newline_to_br s = s.
Proof.
  rewrite MarkdownFacts.newline_to_br_spec.
  induction s as [|c s IH]; [done|].
  intros [Hc Hs]%free_of_cons. simpl. by rewrite Hc, (IH Hs).
Qed.

Lemma exec_newline_keeps_out c r :
  free_of c r = true -> keeps_out c (exec_newline r).
Proof.
  intros Hr prev s n out _. unfold exec_newline.
  destruct s as [|d s]; [done|]. destruct (d =? 10); [|done].
  by intros [= <- <-].
Qed.

(** *** Bold and italic *)

Section Delimited.
Variables (o k : code_unit) (open' close' before after : jsstring).
Let E := exec_delimited (o :: open') (k :: close') before after.

Lemma exec_delimited_prev p p' t : E p t = E p' t.
Proof. reflexivity. Qed.

Lemma exec_delimited_miss prev c s :
  (c =? o) = false -> E prev (c :: s) = None.
Proof. intros Hc. unfold E, exec_delimited. simpl. by rewrite Hc. Qed.

(** A subject without the first code unit of the opening mark is copied. *)
Lemma delimited_plain s prev :
  free_of o s = true -> replace_from E 0 prev s = s.
Proof.
  revert prev. induction s as [|c s IH]; intros prev; [done|].
  intros [Hc Hs]%free_of_cons. simpl.
  rewrite exec_delimited_miss by done. by rewrite IH.
Qed.

Lemma delimited_prefix a s prev :
  free_of o a = true ->
  replace_from E 0 prev (a ++ s) = a ++ replace E s.
Proof.
  revert prev. induction a as [|c a IH]; intros prev.
  - intros _. apply replace_from_prev, exec_delimited_prev.
  - intros [Hc Ha]%free_of_cons. simpl.
    rewrite exec_delimited_miss by done. by rewrite IH.
Qed.

Lemma lazy_dots_until_unfold close s :
  lazy_dots_until close s
  = if startsWith s close then Some []
    else match s with
         | [] => None
         | c :: rest =>
           if LineTerminator c then None
           else cons c <$> lazy_dots_until close rest
         end.
Proof. by destruct s. Qed.

Lemma lazy_dots_until_found g b :
  free_of k g = true -> one_line g = true ->
  lazy_dots_until (k :: close') (g ++ (k :: close') ++ b) = Some g.
Proof.
  induction g as [|c g IH].
  - intros _ _. rewrite lazy_dots_until_unfold.
    change ([] ++ (k :: close') ++ b) with ((k :: close') ++ b).
    by rewrite (startsWith_app (k :: close') b).
  - intros [Hc Hg]%free_of_cons [Hline Hone]%one_line_cons.
    rewrite lazy_dots_until_unfold.
    change ((c :: g) ++ (k :: close') ++ b)
      with (c :: (g ++ (k :: close') ++ b)).
    cbn [startsWith]. rewrite Hc. cbn [andb]. rewrite Hline.
    by rewrite (IH Hg Hone).
Qed.

Lemma lazy_dots_until_missing g :
  free_of k g = true -> lazy_dots_until (k :: close') g = None.
Proof.
  induction g as [|c g IH]; [done|].
  intros [Hc Hg]%free_of_cons. rewrite lazy_dots_until_unfold.
  cbn [startsWith]. rewrite Hc. simpl.
  destruct (LineTerminator c); [done|]. by rewrite (IH Hg).
Qed.

(** One closed pair, the first of the subject, is rewritten; the scan
    resumes after it. *)
Lemma delimited_pair a g b :
  free_of o a = true -> free_of k g = true -> one_line g = true ->
  replace E (a ++ (o :: open') ++ g ++ (k :: close') ++ b)
    = a ++ before ++ g ++ after ++ replace E b.
Proof.
  intros Ha Hg Hline. unfold replace. rewrite delimited_prefix by done.
  f_equal. unfold replace.
  change ((o :: open') ++ g ++ (k :: close') ++ b)
    with (o :: (open' ++ g ++ (k :: close') ++ b)).
  cbn [replace_from].
  assert (E None (o :: open' ++ g ++ (k :: close') ++ b)
          = Some ((length (o :: open') + length g
                   + length (k :: close'))%nat,
                  before ++ g ++ after)) as ->.
  { unfold E, exec_delimited.
    change (o :: open' ++ g ++ (k :: close') ++ b)
      with ((o :: open') ++ g ++ (k :: close') ++ b).
    rewrite startsWith_app, MarkdownFacts.drop_length_app.
    by rewrite lazy_dots_until_found. }
  rewrite <- !app_assoc. do 3 f_equal.
  replace (Nat.pred (length (o :: open') + length g + length (k :: close')))
    with (length (open' ++ g ++ (k :: close'))).
  - replace (open' ++ g ++ (k :: close') ++ b)
      with ((open' ++ g ++ (k :: close')) ++ b)
      by (by rewrite <- !app_assoc).
    destruct (replace_from_skip_app E (open' ++ g ++ (k :: close')) b
                (Some o)) as [prev' ->].
    apply replace_from_prev, exec_delimited_prev.
  - rewrite !length_app. simpl. lia.
Qed.

End Delimited.

(** *** Headings *)

Section Heading.
Variables (m : code_unit) (marker' before after : jsstring).
Let E := exec_heading (m :: marker') before after.

Lemma heading_inside s p :
  LineTerminator p = false -> one_line s = true ->
  replace_from E 0 (Some p) s = s.
Proof.
  revert p. induction s as [|c s IH]; intros p Hp; [done|].
  intros [Hc Hs]%one_line_cons. simpl.
  unfold E at 1, exec_heading. simpl. rewrite Hp. simpl.
  by rewrite IH.
Qed.

(** On a single line that does not begin with the marker, nothing happens. *)
Lemma heading_plain s :
  one_line s = true -> startsWith s (m :: marker') = false ->
  replace E s = s.
Proof.
  intros Hline Hstart. unfold replace. destruct s as [|c s]; [done|].
  apply one_line_cons in Hline as [Hc Hs]. cbn [replace_from].
  unfold E at 1, exec_heading. rewrite Hstart. simpl.
  by rewrite heading_inside.
Qed.

Lemma rest_of_line_one_line y : one_line y = true -> rest_of_line y = y.
Proof.
  induction y as [|c y IH]; [done|].
  intros [Hc Hy]%one_line_cons. simpl. by rewrite Hc, IH.
Qed.

(** A single line that begins with the marker becomes the heading, whole. *)
Lemma heading_first_line y :
  one_line y = true ->
  replace E ((m :: marker') ++ y) = before ++ y ++ after.
Proof.
  intros Hline. unfold replace.
  change ((m :: marker') ++ y) with (m :: (marker' ++ y)).
  cbn [replace_from].
  assert (E None (m :: marker' ++ y)
          = Some ((length (m :: marker') + length y)%nat,
                  before ++ y ++ after)) as ->.
  { unfold E, exec_heading.
    change (m :: marker' ++ y) with ((m :: marker') ++ y).
    rewrite startsWith_app, MarkdownFacts.drop_length_app.
    by rewrite rest_of_line_one_line. }
  rewrite replace_from_skip_all.
  - by rewrite app_nil_r.
  - rewrite length_app. simpl. lia.
Qed.

End Heading.

(** *** The substitutions of the formatter *)

Lemma bold_prefix a s :
  free_of STAR a = true -> bold (a ++ s) = a ++ bold s.
Proof.
  exact (delimited_prefix 42 42 [42] [42] (lit "<strong>") (lit "</strong>")
           a s None).
Qed.

Lemma italic_prefix a s :
  free_of STAR a = true -> italic (a ++ s) = a ++ italic s.
Proof.
  exact (delimited_prefix 42 42 [] [] (lit "<em>") (lit "</em>") a s None).
Qed.

Lemma bold_plain s : free_of STAR s = true -> bold s = s.
Proof.
  exact (delimited_plain 42 42 [42] [42] (lit "<strong>") (lit "</strong>")
           s None).
Qed.

Lemma italic_plain s : free_of STAR s = true -> italic s = s.
Proof.
  exact (delimited_plain 42 42 [] [] (lit "<em>") (lit "</em>") s None).
Qed.

Lemma heading1_plain s :
  one_line s = true -> startsWith s (lit "# ") = false -> heading1 s = s.
Proof. exact (heading_plain 35 [32] (lit "<h1>") (lit "</h1>") s). Qed.

Lemma heading2_plain s :
  one_line s = true -> startsWith s (lit "## ") = false -> heading2 s = s.
Proof. exact (heading_plain 35 [35; 32] (lit "<h2>") (lit "</h2>") s). Qed.

Lemma heading3_plain s :
  one_line s = true -> startsWith s (lit "### ") = false -> heading3 s = s.
Proof.
  exact (heading_plain 35 [35; 35; 32] (lit "<h3>") (lit "</h3>") s).
Qed.

Lemma heading1_first_line y :
  one_line y = true ->
  heading1 (lit "# " ++ y) = lit "<h1>" ++ y ++ lit "</h1>".
Proof. exact (heading_first_line 35 [32] (lit "<h1>") (lit "</h1>") y). Qed.

Lemma heading2_first_line y :
  one_line y = true ->
  heading2 (lit "## " ++ y) = lit "<h2>" ++ y ++ lit "</h2>".
Proof.
  exact (heading_first_line 35 [35; 32] (lit "<h2>") (lit "</h2>") y).
Qed.

Lemma heading3_first_line y :
  one_line y = true ->
  heading3 (lit "### " ++ y) = lit "<h3>" ++ y ++ lit "</h3>".
Proof.
  exact (heading_first_line 35 [35; 35; 32] (lit "<h3>") (lit "</h3>") y).
Qed.

Lemma headings_plain s :
  one_line s = true -> startsWith s [HASH] = false ->
  heading3 (heading2 (heading1 s)) = s.
Proof.
  intros Hline Hhead.
  rewrite heading1_plain by (done || by apply startsWith_not_head).
  rewrite heading2_plain by (done || by apply startsWith_not_head).
  by rewrite heading3_plain by (done || by apply startsWith_not_head).
Qed.

(** The inline substitutions bring in no line terminator. *)
Lemma inline_keeps_out c md :
  c = 13 \/ c = 8232 \/ c = 8233 ->
  free_of c md = true ->
  free_of c (italic (bold (newline_to_br md))) = true.
Proof.
  intros Hc Hmd.
  apply MarkdownFacts.replace_from_free;
    [apply MarkdownFacts.exec_delimited_keeps_out;
     by destruct Hc as [->|[->| ->]]|].
  apply MarkdownFacts.replace_from_free;
    [apply MarkdownFacts.exec_delimited_keeps_out;
     by destruct Hc as [->|[->| ->]]|].
  apply MarkdownFacts.replace_from_free; [|done].
  apply exec_newline_keeps_out. by destruct Hc as [->|[->| ->]].
Qed.

Lemma inline_one_line md :
  free_of 13 md = true -> free_of 8232 md = true ->
  free_of 8233 md = true ->
  one_line (italic (bold (newline_to_br md))) = true.
Proof.
  intros H13 H8232 H8233. apply free_of_one_line.
  - apply MarkdownFacts.replace_from_free;
      [by apply MarkdownFacts.exec_delimited_keeps_out|].
    apply MarkdownFacts.replace_from_free;
      [by apply MarkdownFacts.exec_delimited_keeps_out|].
    apply MarkdownFacts.newline_to_br_free.
  - apply inline_keeps_out; auto.
  - apply inline_keeps_out; auto.
  - apply inline_keeps_out; auto.
Qed.

(** The first code unit of the result of a scan is the first one of the
    subject or the first one of a replacement. *)
Lemma replace_from_head exec s prev :
  (forall p t n out,
     exec p t = Some (n, out) ->
     startsWith out [HASH] = false /\ out <> []) ->
  startsWith s [HASH] = false ->
  startsWith (replace_from exec 0 prev s) [HASH] = false.
Proof.
  intros Hexec Hs. destruct s as [|c s]; [done|]. simpl.
  destruct (exec prev (c :: s)) as [[n out]|] eqn:Hmatch; [|done].
  destruct (Hexec _ _ _ _ Hmatch) as [Hout Hne].
  by destruct out.
Qed.

Lemma exec_delimited_head open close before after p t n out :
  startsWith before [HASH] = false -> before <> [] ->
  exec_delimited open close before after p t = Some (n, out) ->
  startsWith out [HASH] = false /\ out <> [].
Proof.
  intros Hhead Hne. unfold exec_delimited.
  destruct (startsWith t open); [|done].
  destruct (lazy_dots_until close _); [|done].
  intros [= <- <-]. by destruct before.
Qed.

Lemma inline_head md :
  startsWith md [HASH] = false ->
  startsWith (italic (bold (newline_to_br md))) [HASH] = false.
Proof.
  intros Hmd.
  apply replace_from_head;
    [intros p t n out; by apply exec_delimited_head|].
  apply replace_from_head;
    [intros p t n out; by apply exec_delimited_head|].
  apply replace_from_head; [|done].
  intros p t n out. unfold exec_newline.
  destruct t as [|d t]; [done|]. destruct (d =? 10); [|done].
  by intros [= <- <-].
Qed.

Lemma inline_prefix u t :
  free_of STAR u = true -> free_of 10 u = true ->
  italic (bold (newline_to_br (u ++ t)))
    = u ++ italic (bold (newline_to_br t)).
Proof.
  intros Hstar Hlf.
  rewrite newline_to_br_app, newline_to_br_plain by done.
  by rewrite bold_prefix, italic_prefix.
Qed.

(** X14: a text on one line without asterisk that does not begin with a hash
    sign comes out of [formatMarkdownForDisplay] as it went in; in
    particular angle brackets, ampersands and quotes are not escaped. *)
Theorem format_plain_text (s : jsstring) :
  one_line s = true -> free_of STAR s = true ->
  startsWith s [HASH] = false ->
  formatMarkdownForDisplay s = s.
Proof.
  intros Hline Hstar Hhead. unfold formatMarkdownForDisplay.
  rewrite newline_to_br_plain by by apply one_line_free_LF.
  rewrite bold_plain, italic_plain by done.
  by apply headings_plain.
Qed.

(** X15: in a text without CR, U+2028 and U+2029 that does not begin with a
    hash sign no heading is made, whatever its later lines begin with: the
    newlines are gone before the heading patterns run, so these can only
    match at the very start. *)
Theorem headings_only_at_start (md : jsstring) :
  free_of 13 md = true -> free_of 8232 md = true ->
  free_of 8233 md = true ->
  startsWith md [HASH] = false ->
  formatMarkdownForDisplay md = italic (bold (newline_to_br md)).
Proof.
  intros H13 H8232 H8233 Hhead. unfold formatMarkdownForDisplay.
  apply headings_plain; [by apply inline_one_line | by apply inline_head].
Qed.

(** X16: when a text without CR, U+2028 and U+2029 begins with a heading
    marker, everything after the marker, later lines included, ends up inside
    that one heading. *)
Theorem first_line_heading (t : jsstring) :
  free_of 13 t = true -> free_of 8232 t = true -> free_of 8233 t = true ->
  let body := italic (bold (newline_to_br t)) in
  formatMarkdownForDisplay (lit "# " ++ t)
    = lit "<h1>" ++ body ++ lit "</h1>"
  /\ formatMarkdownForDisplay (lit "## " ++ t)
     = lit "<h2>" ++ body ++ lit "</h2>"
  /\ formatMarkdownForDisplay (lit "### " ++ t)
     = lit "<h3>" ++ body ++ lit "</h3>".
Proof.
  intros H13 H8232 H8233 body.
  pose proof (inline_one_line t H13 H8232 H8233) as Hbody.
  fold body in Hbody. unfold formatMarkdownForDisplay.
  rewrite !inline_prefix by done. fold body.
  split; [|split].
  - rewrite heading1_first_line by done.
    rewrite heading2_plain, heading3_plain; try done;
      by rewrite !one_line_app, Hbody.
  - rewrite heading1_plain; [|by rewrite one_line_app, Hbody|done].
    rewrite heading2_first_line by done.
    rewrite heading3_plain; try done. by rewrite !one_line_app, Hbody.
  - rewrite heading1_plain; [|by rewrite one_line_app, Hbody|done].
    rewrite heading2_plain; [|by rewrite one_line_app, Hbody|done].
    by rewrite heading3_first_line.
Qed.

(** X17: a pair of double asterisks around a run without asterisk and line
    terminator becomes a [strong] element, and the scan goes on behind it;
    the same for single asterisks and [em]. *)
Theorem emphasis_pairs (a g b : jsstring) :
  free_of STAR a = true -> free_of STAR g = true -> one_line g = true ->
  bold (a ++ lit "**" ++ g ++ lit "**" ++ b)
    = a ++ lit "<strong>" ++ g ++ lit "</strong>" ++ bold b
  /\ italic (a ++ lit "*" ++ g ++ lit "*" ++ b)
     = a ++ lit "<em>" ++ g ++ lit "</em>" ++ italic b.
Proof.
  intros Ha Hg Hline. split.
  - exact (delimited_pair 42 42 [42] [42] (lit "<strong>") (lit "</strong>")
             a g b Ha Hg Hline).
  - exact (delimited_pair 42 42 [] [] (lit "<em>") (lit "</em>")
             a g b Ha Hg Hline).
Qed.

Lemma startsWith_free_head c s :
  free_of c s = true -> startsWith s [c] = false.
Proof.
  destruct s as [|d s]; [done|]. intros [Hd _]%free_of_cons.
  simpl. by rewrite Hd.
Qed.

Lemma bold_unclosed g :
  free_of STAR g = true -> bold (lit "**" ++ g) = lit "**" ++ g.
Proof.
  intros Hg. change (lit "**" ++ g) with (42 :: 42 :: g).
  unfold bold, replace. cbn [replace_from].
  match goal with
  | |- context [match ?e with _ => _ end] => assert (e = None) as ->
  end.
  { unfold exec_delimited.
    change (startsWith (42 :: 42 :: g) (lit "**")) with true.
    change (drop (length (lit "**")) (42 :: 42 :: g)) with g.
    pose proof (lazy_dots_until_missing 42 [42] g Hg) as Hmiss.
    change (lazy_dots_until (lit "**") g = None) in Hmiss.
    by rewrite Hmiss. }
  cbn [replace_from].
  match goal with
  | |- context [match ?e with _ => _ end] => assert (e = None) as ->
  end.
  { unfold exec_delimited.
    pose proof (startsWith_free_head 42 g Hg) as Hhead.
    change (startsWith (42 :: g) (lit "**") = false) in Hhead.
    by rewrite Hhead. }
  do 2 f_equal.
  exact (delimited_plain 42 42 [42] [42] (lit "<strong>") (lit "</strong>")
           g (Some 42) Hg).
Qed.

(** X18: a double asterisk that is never closed is not left alone: the
    italic pattern takes it for an empty emphasis.  For plain [a] and [g]
    the text [a**g] comes out as [a<em></em>g]. *)
Theorem unclosed_bold (a g : jsstring) :
  one_line a = true -> free_of STAR a = true ->
  startsWith a [HASH] = false ->
  one_line g = true -> free_of STAR g = true ->
  formatMarkdownForDisplay (a ++ lit "**" ++ g)
    = a ++ lit "<em></em>" ++ g.
Proof.
  intros Ha Hastar Hahead Hg Hgstar. unfold formatMarkdownForDisplay.
  rewrite newline_to_br_plain
    by (apply one_line_free_LF; by rewrite !one_line_app, Ha, Hg).
  rewrite bold_prefix, bold_unclosed by done.
  pose proof (delimited_pair 42 42 [] [] (lit "<em>") (lit "</em>")
                a [] g Hastar eq_refl eq_refl) as Hitalic.
  change (italic (a ++ lit "**" ++ g)
          = a ++ lit "<em></em>" ++ italic g) in Hitalic.
  rewrite Hitalic, italic_plain by done.
  apply headings_plain.
  - by rewrite !one_line_app, Ha, Hg.
  - by destruct a.
Qed.

Lemma format_plain_text_witness :
  formatMarkdownForDisplay (lit "<img src=x onerror=alert(1)>")
    = lit "<img src=x onerror=alert(1)>".
Proof. apply format_plain_text; reflexivity. Defined.

Lemma headings_only_at_start_witness :
  formatMarkdownForDisplay (lit "Intro
# Title")
    = italic (bold (newline_to_br (lit "Intro
# Title"))).
Proof. apply headings_only_at_start; reflexivity. Defined.

Lemma first_line_heading_witness :
  formatMarkdownForDisplay (lit "# " ++ lit "Title
body")
    = lit "<h1>" ++ italic (bold (newline_to_br (lit "Title
body"))) ++ lit "</h1>".
Proof.
  apply (first_line_heading (lit "Title
body")); reflexivity.
Defined.

Lemma emphasis_pairs_witness :
  bold (lit "x " ++ lit "**" ++ lit "bold" ++ lit "**" ++ lit " y")
    = lit "x " ++ lit "<strong>" ++ lit "bold" ++ lit "</strong>"
      ++ bold (lit " y").
Proof. apply emphasis_pairs; reflexivity. Defined.

Lemma unclosed_bold_witness :
  formatMarkdownForDisplay (lit "a" ++ lit "**" ++ lit "g")
    = lit "a" ++ lit "<em></em>" ++ lit "g".
Proof. apply unclosed_bold; reflexivity. Defined.

End MarkdownShapeFacts.

(* --------------------------------------------------------------------- *)
(** ** components/OutputPanel.tsx: the formatter as a whole               *)
(* --------------------------------------------------------------------- *)

Module FormatterFacts.
Import OutputPanel LineBreaks Lines.

(** An asterisk that no second one follows is not the start of a bold
    mark. *)
Lemma bold_lone_star (s : jsstring) :
  startsWith s [STAR] = false -> bold (STAR :: s) = STAR :: bold s.
Proof.
  intros Hs. unfold bold, replace. cbn [replace_from].
  match goal with
  | |- context [match ?e with _ => _ end] => assert (e = None) as ->
  end.
  { unfold exec_delimited.
    change (startsWith (STAR :: s) (lit "**")) with (startsWith s [STAR]).
    by rewrite Hs. }
  f_equal. by apply MarkdownShapeFacts.replace_from_prev.
Qed.

(** Single asterisks around a run that is not empty are left to the italic
    pattern. *)
Lemma bold_single_stars (a g b : jsstring) :
  free_of STAR a = true -> free_of STAR g = true -> g <> [] ->
  free_of STAR b = true ->
  bold (a ++ lit "*" ++ g ++ lit "*" ++ b) = a ++ lit "*" ++ g ++ lit "*" ++ b.
Proof.
  intros Ha Hg Hne Hb.
  rewrite MarkdownShapeFacts.bold_prefix by done. f_equal.
  change (lit "*" ++ g ++ lit "*" ++ b) with (STAR :: (g ++ STAR :: b)).
  rewrite bold_lone_star.
  - f_equal. rewrite MarkdownShapeFacts.bold_prefix by done. f_equal.
    rewrite bold_lone_star
      by by apply MarkdownShapeFacts.startsWith_free_head.
    f_equal. by apply MarkdownShapeFacts.bold_plain.
  - destruct g as [|c g]; [done|].
    apply MarkdownShapeFacts.free_of_cons in Hg as [Hc _].
    simpl. by rewrite Hc.
Qed.

(** A tag in front keeps the heading patterns away. *)
Lemma headings_after_text (a t : jsstring) (c : code_unit) :
  startsWith a [HASH] = false -> (c =? HASH) = false ->
  startsWith (a ++ c :: t) [HASH] = false.
Proof.
  intros Ha Hc. destruct a as [|d a]; simpl in *; [by rewrite Hc|done].
Qed.

(** Emphasis in a plain line, through the whole formatter. *)
Lemma format_emphasis (a g b : jsstring) :
  one_line a = true -> free_of STAR a = true ->
  startsWith a [HASH] = false ->
  one_line g = true -> free_of STAR g = true ->
  one_line b = true -> free_of STAR b = true ->
  formatMarkdownForDisplay (a ++ lit "**" ++ g ++ lit "**" ++ b)
    = a ++ lit "<strong>" ++ g ++ lit "</strong>" ++ b
  /\ (g <> [] ->
      formatMarkdownForDisplay (a ++ lit "*" ++ g ++ lit "*" ++ b)
        = a ++ lit "<em>" ++ g ++ lit "</em>" ++ b).
Proof.
  intros Ha Hastar Hahead Hg Hgstar Hb Hbstar.
  unfold formatMarkdownForDisplay. split.
  - rewrite MarkdownShapeFacts.newline_to_br_plain
      by (apply MarkdownShapeFacts.one_line_free_LF;
          by rewrite !MarkdownShapeFacts.one_line_app, Ha, Hg, Hb).
    pose proof (MarkdownShapeFacts.delimited_pair 42 42 [42] [42]
                  (lit "<strong>") (lit "</strong>") a g b
                  Hastar Hgstar Hg) as Hbold.
    change (bold (a ++ lit "**" ++ g ++ lit "**" ++ b)
            = a ++ lit "<strong>" ++ g ++ lit "</strong>" ++ bold b)
      in Hbold.
    rewrite Hbold, MarkdownShapeFacts.bold_plain by done.
    rewrite MarkdownShapeFacts.italic_plain
      by (by rewrite !MarkdownFacts.free_of_app, Hastar, Hgstar, Hbstar).
    apply MarkdownShapeFacts.headings_plain.
    + by rewrite !MarkdownShapeFacts.one_line_app, Ha, Hg, Hb.
    + by apply headings_after_text.
  - intros Hne.
    rewrite MarkdownShapeFacts.newline_to_br_plain
      by (apply MarkdownShapeFacts.one_line_free_LF;
          by rewrite !MarkdownShapeFacts.one_line_app, Ha, Hg, Hb).
    rewrite bold_single_stars by done.
    pose proof (MarkdownShapeFacts.delimited_pair 42 42 [] []
                  (lit "<em>") (lit "</em>") a g b
                  Hastar Hgstar Hg) as Hitalic.
    change (italic (a ++ lit "*" ++ g ++ lit "*" ++ b)
            = a ++ lit "<em>" ++ g ++ lit "</em>" ++ italic b)
      in Hitalic.
    rewrite Hitalic, MarkdownShapeFacts.italic_plain by done.
    apply MarkdownShapeFacts.headings_plain.
    + by rewrite !MarkdownShapeFacts.one_line_app, Ha, Hg, Hb.
    + by apply headings_after_text.
Qed.

(** A plain line behind a heading marker, through the whole formatter. *)
Lemma format_heading (y : jsstring) :
  one_line y = true -> free_of STAR y = true ->
  formatMarkdownForDisplay (lit "# " ++ y) = lit "<h1>" ++ y ++ lit "</h1>"
  /\ formatMarkdownForDisplay (lit "## " ++ y)
     = lit "<h2>" ++ y ++ lit "</h2>"
  /\ formatMarkdownForDisplay (lit "### " ++ y)
     = lit "<h3>" ++ y ++ lit "</h3>".
Proof.
  intros Hy Hstar. unfold formatMarkdownForDisplay.
  rewrite !MarkdownShapeFacts.newline_to_br_plain
    by (apply MarkdownShapeFacts.one_line_free_LF;
        by rewrite MarkdownShapeFacts.one_line_app, Hy).
  rewrite !MarkdownShapeFacts.bold_plain
    by (by rewrite MarkdownFacts.free_of_app, Hstar).
  rewrite !MarkdownShapeFacts.italic_plain
    by (by rewrite MarkdownFacts.free_of_app, Hstar).
  split; [|split].
  - rewrite MarkdownShapeFacts.heading1_first_line by done.
    rewrite MarkdownShapeFacts.heading2_plain,
      MarkdownShapeFacts.heading3_plain; try done;
      by rewrite !MarkdownShapeFacts.one_line_app, Hy.
  - rewrite MarkdownShapeFacts.heading1_plain;
      [|by rewrite MarkdownShapeFacts.one_line_app, Hy|done].
    rewrite MarkdownShapeFacts.heading2_first_line by done.
    rewrite MarkdownShapeFacts.heading3_plain; try done.
    by rewrite !MarkdownShapeFacts.one_line_app, Hy.
  - rewrite MarkdownShapeFacts.heading1_plain;
      [|by rewrite MarkdownShapeFacts.one_line_app, Hy|done].
    rewrite MarkdownShapeFacts.heading2_plain;
      [|by rewrite MarkdownShapeFacts.one_line_app, Hy|done].
    by rewrite MarkdownShapeFacts.heading3_first_line.
Qed.

(** The line-break tags of the output. *)
Lemma format_line_breaks (markdown : jsstring) :
  holds BR (occurrences LF markdown) (formatMarkdownForDisplay markdown)
  /\ occurrences BR (formatMarkdownForDisplay markdown)
     = (occurrences LF markdown + occurrences BR markdown)%nat
  /\ includes (formatMarkdownForDisplay markdown) LF = false.
Proof.
  assert (occurrences BR (formatMarkdownForDisplay markdown)
          = (occurrences LF markdown + occurrences BR markdown)%nat)
    as Hcount.
  { unfold formatMarkdownForDisplay, heading3, heading2, heading1, italic,
      bold.
    rewrite !MarkdownFacts.replace_count.
    - pose proof (MarkdownFacts.newline_to_br_count_from [] markdown) as Hnl.
      simpl in Hnl. lia.
    - apply MarkdownFacts.exec_delimited_keeps_count; try done;
        apply MarkdownFacts.inert_strong.
    - apply MarkdownFacts.exec_delimited_keeps_count; try done;
        apply MarkdownFacts.inert_em.
    - apply MarkdownFacts.exec_heading_keeps_count; try done;
        apply MarkdownFacts.inert_h1.
    - apply MarkdownFacts.exec_heading_keeps_count; try done;
        apply MarkdownFacts.inert_h2.
    - apply MarkdownFacts.exec_heading_keeps_count; try done;
        apply MarkdownFacts.inert_h3. }
  assert (includes (formatMarkdownForDisplay markdown) LF = false) as Hfree.
  { apply MarkdownFacts.free_of_includes. unfold formatMarkdownForDisplay.
    repeat (apply MarkdownFacts.replace_from_free;
            [first [by apply MarkdownFacts.exec_heading_keeps_out
                   |by apply MarkdownFacts.exec_delimited_keeps_out]|]).
    apply MarkdownFacts.newline_to_br_free. }
  assert (holds BR (occurrences LF markdown)
            (formatMarkdownForDisplay markdown)) as Hholds.
  { unfold formatMarkdownForDisplay.
    repeat (eapply MarkdownFacts.edit_holds;
            [|apply MarkdownFacts.replace_edit;
              first [by apply MarkdownFacts.exec_heading_edits
                    |by apply MarkdownFacts.exec_delimited_edits]]).
    apply MarkdownFacts.newline_to_br_holds. }
  by split.
Qed.

(** C6: [formatMarkdownForDisplay] is the six substitutions in the order
    newline, bold, italic, heading 1, heading 2, heading 3, and each of them
    does its part.  The first puts a line-break tag in the place of every
    newline.  The second turns a pair of double asterisks around a run
    without asterisk and line terminator into a [strong] element and goes on
    behind it, the third does the same with single asterisks and [em]; both
    copy a text without asterisk.  The heading substitutions turn a line that
    begins with their marker into their element and copy a line that does
    not.  Through the whole formatter: emphasis in a plain line and a plain
    line behind a heading marker come out as the element, bold is tried
    before italic, and the newlines are gone before the bold and heading
    patterns run.  On [**bold**] the output contains
    [<strong>bold</strong>], on [# Title] it contains [<h1>Title</h1>], and
    on every input the output holds one line-break tag for each newline of
    the input and no newline: the tags of the output are exactly those made
    from the newlines and those the input already had. *)
Theorem formatMarkdownForDisplay_spec :
  (forall markdown,
     formatMarkdownForDisplay markdown
       = heading3 (heading2 (heading1 (italic (bold
           (newline_to_br markdown))))))
  /\ (forall s,
        newline_to_br s = flat_map (fun c => if c =? 10 then BR else [c]) s)
  /\ (forall a g b,
        free_of STAR a = true -> free_of STAR g = true -> one_line g = true ->
        bold (a ++ lit "**" ++ g ++ lit "**" ++ b)
          = a ++ lit "<strong>" ++ g ++ lit "</strong>" ++ bold b
        /\ italic (a ++ lit "*" ++ g ++ lit "*" ++ b)
           = a ++ lit "<em>" ++ g ++ lit "</em>" ++ italic b)
  /\ (forall s, free_of STAR s = true -> bold s = s /\ italic s = s)
  /\ (forall y,
        one_line y = true ->
        heading1 (lit "# " ++ y) = lit "<h1>" ++ y ++ lit "</h1>"
        /\ heading2 (lit "## " ++ y) = lit "<h2>" ++ y ++ lit "</h2>"
        /\ heading3 (lit "### " ++ y) = lit "<h3>" ++ y ++ lit "</h3>")
  /\ (forall s,
        one_line s = true ->
        (startsWith s (lit "# ") = false -> heading1 s = s)
        /\ (startsWith s (lit "## ") = false -> heading2 s = s)
        /\ (startsWith s (lit "### ") = false -> heading3 s = s))
  /\ (forall a g b,
        one_line a = true -> free_of STAR a = true ->
        startsWith a [HASH] = false ->
        one_line g = true -> free_of STAR g = true ->
        one_line b = true -> free_of STAR b = true ->
        formatMarkdownForDisplay (a ++ lit "**" ++ g ++ lit "**" ++ b)
          = a ++ lit "<strong>" ++ g ++ lit "</strong>" ++ b
        /\ (g <> [] ->
            formatMarkdownForDisplay (a ++ lit "*" ++ g ++ lit "*" ++ b)
              = a ++ lit "<em>" ++ g ++ lit "</em>" ++ b))
  /\ (forall y,
        one_line y = true -> free_of STAR y = true ->
        formatMarkdownForDisplay (lit "# " ++ y)
          = lit "<h1>" ++ y ++ lit "</h1>"
        /\ formatMarkdownForDisplay (lit "## " ++ y)
           = lit "<h2>" ++ y ++ lit "</h2>"
        /\ formatMarkdownForDisplay (lit "### " ++ y)
           = lit "<h3>" ++ y ++ lit "</h3>")
  /\ formatMarkdownForDisplay (lit "**bold**") = lit "<strong>bold</strong>"
  /\ includes (formatMarkdownForDisplay (lit "**bold**"))
              (lit "<strong>bold</strong>") = true
  /\ formatMarkdownForDisplay (lit "# Title") = lit "<h1>Title</h1>"
  /\ includes (formatMarkdownForDisplay (lit "# Title"))
              (lit "<h1>Title</h1>") = true
  /\ formatMarkdownForDisplay (lit "**a
b**") = lit "<strong>a<br/>b</strong>"
  /\ formatMarkdownForDisplay (lit "a
# b") = lit "a<br/># b"
  /\ (forall markdown,
        holds BR (occurrences LF markdown) (formatMarkdownForDisplay markdown)
        /\ occurrences BR (formatMarkdownForDisplay markdown)
           = (occurrences LF markdown + occurrences BR markdown)%nat
        /\ includes (formatMarkdownForDisplay markdown) LF = false).
Proof.
  split; [done|].
  split; [exact MarkdownFacts.newline_to_br_spec|].
  split.
  { intros a g b Ha Hg Hline. split.
    - exact (MarkdownShapeFacts.delimited_pair 42 42 [42] [42]
               (lit "<strong>") (lit "</strong>") a g b Ha Hg Hline).
    - exact (MarkdownShapeFacts.delimited_pair 42 42 [] []
               (lit "<em>") (lit "</em>") a g b Ha Hg Hline). }
  split.
  { intros s Hs. split.
    - by apply MarkdownShapeFacts.bold_plain.
    - by apply MarkdownShapeFacts.italic_plain. }
  split.
  { intros y Hy. split; [|split].
    - by apply MarkdownShapeFacts.heading1_first_line.
    - by apply MarkdownShapeFacts.heading2_first_line.
    - by apply MarkdownShapeFacts.heading3_first_line. }
  split.
  { intros s Hs. split; [|split]; intros Hstart.
    - by apply MarkdownShapeFacts.heading1_plain.
    - by apply MarkdownShapeFacts.heading2_plain.
    - by apply MarkdownShapeFacts.heading3_plain. }
  split; [exact format_emphasis|].
  split; [exact format_heading|].
  split; [by vm_compute|]. split; [by vm_compute|].
  split; [by vm_compute|]. split; [by vm_compute|].
  split; [by vm_compute|]. split; [by vm_compute|].
  exact format_line_breaks.
Qed.

Lemma formatMarkdownForDisplay_spec_witness :
  italic (lit "x " ++ lit "*" ++ lit "it" ++ lit "*" ++ lit " y")
    = lit "x " ++ lit "<em>" ++ lit "it" ++ lit "</em>" ++ italic (lit " y")
  /\ heading2 (lit "## " ++ lit "Part") = lit "<h2>Part</h2>"
  /\ heading3 (lit "# Title") = lit "# Title"
  /\ formatMarkdownForDisplay (lit "so " ++ lit "*" ++ lit "it" ++ lit "*"
                               ++ lit " is")
     = lit "so " ++ lit "<em>" ++ lit "it" ++ lit "</em>" ++ lit " is"
  /\ formatMarkdownForDisplay (lit "### " ++ lit "Part")
     = lit "<h3>" ++ lit "Part" ++ lit "</h3>".
Proof.
  destruct formatMarkdownForDisplay_spec
    as (_ & _ & Hpair & _ & Hfirst & Hplain & Hemphasis & Hheading & _).
  split; [|split; [|split; [|split]]].
  - apply (Hpair (lit "x ") (lit "it") (lit " y")); reflexivity.
  - apply (Hfirst (lit "Part")). reflexivity.
  - apply (Hplain (lit "# Title")); reflexivity.
  - apply (Hemphasis (lit "so ") (lit "it") (lit " is")); try reflexivity.
    discriminate.
  - apply (Hheading (lit "Part")); reflexivity.
Defined.

End FormatterFacts.

(* --------------------------------------------------------------------- *)
(** ** components/OutputPanel.tsx and Sidebar.tsx: more on the handlers   *)
(* --------------------------------------------------------------------- *)

Module HandlerFacts.
Import OutputPanel OutputContent PreviewResources.
Section HandlerFacts.
Context `{Engine}.

(** X19: in a browser whose URL counter is ahead of its store, a download
    saves exactly one file and leaves everything else as it was: the object
    URL it made is revoked again, every other URL is kept, no request is
    sent, clipboard and toasts are untouched; the counter stays ahead. *)
Theorem handleDownload_frame (content filename : jsstring) (w : Browser) :
  ahead (object_urls w) w ->
  let w' := handleDownload content filename w in
  downloads w' = downloads w ++ [text_file filename content]
  /\ object_urls w' = object_urls w
  /\ requests w' = requests w
  /\ clipboard w' = clipboard w
  /\ toasts w' = toasts w
  /\ ahead (object_urls w') w'.
Proof.
  intros Hahead.
  assert (object_urls w !! next_object_url w = None) as Hfresh
    by (apply Hahead; lia).
  pose proof (OutputPanelFacts.handleDownload_releases content filename w
                Hfresh) as Hstore.
  pose proof (OutputPanelFacts.handleDownload_downloads content filename w)
    as Hsaved.
  simpl. split; [done|]. split; [done|].
  unfold handleDownload, createObjectURL, click_download_link in *.
  simpl in *. rewrite lookup_insert_eq in *. simpl in *.
  repeat split. intros url Hurl. rewrite Hstore. apply Hahead.
  unfold revokeObjectURL, with_object_urls in Hurl. simpl in Hurl. lia.
Qed.

(** X20: Copy and Download read the same content: whatever the props and the
    active tab, the clipboard after a copy holds a text whose UTF-8 bytes
    are those of the file a download saves; the file is [output.md] on the
    markdown tab and [output.txt] on any other. *)
Theorem copy_and_download_agree (props : Props) (activeTab : State)
  (w1 w2 : Browser) :
  exists content,
    clipboard (click_copy props activeTab w1) = Some content
    /\ downloads (click_download props activeTab w2)
       = downloads w2
         ++ [text_file
               (if bool_decide (activeTab = lit "markdown")
                then lit "output.md" else lit "output.txt")
               content].
Proof.
  unfold click_copy, click_download.
  rewrite OutputPanelFacts.handleDownload_downloads.
  eexists. split; [reflexivity|]. by case_bool_decide.
Qed.

(** X21: what the [loadPrompts] effect leaves behind.  When [getPrompts]
    resolves to a non-empty list of prompts: the list is stored, its first
    prompt is selected and the description shown is the one of that first
    prompt.  When it resolves to an empty list the selection is left alone.
    When [getPrompts] itself rejects, the list and the selection are left
    alone and one fixed toast is shown, whatever the error says.  In these
    three cases [loadingPrompts] ends up false. *)
Theorem loadPrompts_outcomes (st : Sidebar.State) (w : Browser) :
  (forall first rest,
     let st' := (Sidebar.loadPrompts_settled (Ok (first :: rest)) st w).1 in
     Sidebar.prompts st' = first :: rest
     /\ Sidebar.selectedPrompt st' = Api.id first
     /\ Sidebar.getSelectedPromptDescription st' = Api.description first
     /\ Sidebar.loadingPrompts st' = false)
  /\ (let st' := (Sidebar.loadPrompts_settled (Ok []) st w).1 in
      Sidebar.prompts st' = []
      /\ Sidebar.selectedPrompt st' = Sidebar.selectedPrompt st
      /\ Sidebar.loadingPrompts st' = false)
  /\ (forall e,
        let r := Sidebar.loadPrompts_settled (Throw e) st w in
        Sidebar.prompts r.1 = Sidebar.prompts st
        /\ Sidebar.selectedPrompt r.1 = Sidebar.selectedPrompt st
        /\ Sidebar.loadingPrompts r.1 = false
        /\ toasts r.2
           = toasts w
             ++ [{| toast_title := lit "Error";
                    toast_description :=
                      lit "Failed to load prompts. Please try again.";
                    toast_variant := Some (lit "destructive") |}]).
Proof.
  split; [|by split].
  intros first rest. simpl. repeat split.
  unfold Sidebar.getSelectedPromptDescription. simpl.
  by rewrite bool_decide_eq_true_2.
Qed.

(** X22: the description under the prompt selector is the description of the
    first loaded prompt whose id is the selected one, and the fixed invitation
    when no loaded prompt has that id. *)
Theorem getSelectedPromptDescription_lookup (st : Sidebar.State) :
  (Sidebar.selectedPrompt st ∉ (Api.id <$> Sidebar.prompts st) ->
   Sidebar.getSelectedPromptDescription st
     = lit "Select a prompt to see its description.")
  /\ (Sidebar.selectedPrompt st ∈ (Api.id <$> Sidebar.prompts st) ->
      exists before p after,
        Sidebar.prompts st = before ++ p :: after
        /\ Api.id p = Sidebar.selectedPrompt st
        /\ (Sidebar.selectedPrompt st ∉ (Api.id <$> before))
        /\ Sidebar.getSelectedPromptDescription st = Api.description p).
Proof.
  unfold Sidebar.getSelectedPromptDescription.
  generalize (Sidebar.selectedPrompt st) as key.
  induction (Sidebar.prompts st) as [|q l IH]; intros key.
  - split; [done|]. by intros ?%elem_of_nil.
  - destruct (IH key) as [IHmiss IHhit].
    cbn [List.find fmap list_fmap]. case_bool_decide as Hq; split.
    + intros []. rewrite <- Hq. apply list_elem_of_here.
    + intros _. exists [], q, l. repeat split; [done|]. apply not_elem_of_nil.
    + intros Hmiss. apply IHmiss.
      intros Hin. apply Hmiss. by apply list_elem_of_further.
    + intros [Heq|Hin]%elem_of_cons; [done|].
      destruct (IHhit Hin) as (before & p & after & -> & Hid & Hmiss & Hd).
      exists (q :: before), p, after. repeat split; try done.
      cbn [fmap list_fmap]. by intros [?|?]%elem_of_cons.
Qed.

End HandlerFacts.

Lemma handleDownload_frame_witness :
  object_urls (handleDownload (lit "Invoice") (lit "output.txt")
                 initial_browser) = ∅
  /\ requests (handleDownload (lit "Invoice") (lit "output.txt")
                 initial_browser) = [].
Proof.
  destruct (handleDownload_frame (lit "Invoice") (lit "output.txt")
              initial_browser) as (_ & Hstore & Hrequests & _).
  - intros url _. reflexivity.
  - split; [exact Hstore | exact Hrequests].
Defined.

Lemma getSelectedPromptDescription_lookup_witness :
  Sidebar.getSelectedPromptDescription Sidebar.initial
    = lit "Select a prompt to see its description.".
Proof.
  apply (proj1 (getSelectedPromptDescription_lookup Sidebar.initial)).
  apply (bool_decide_unpack _). vm_compute. exact I.
Defined.

End HandlerFacts.

(* --------------------------------------------------------------------- *)
(** ** components/DocumentPreview.tsx: what is shown for images and PDFs  *)
(* --------------------------------------------------------------------- *)

Module PreviewFlowFacts.
Import DocumentPreview PreviewView.

Lemma image_not_pdf (f : File) :
  startsWith (file_type f) (lit "image/") = true ->
  file_type f <> lit "application/pdf".
Proof. intros Himage Hpdf. by rewrite Hpdf in Himage. Qed.

Lemma effect_image (f : File) (st : State) (w : Browser) :
  startsWith (file_type f) (lit "image/") = true ->
  effect (Some f) st w
    = {| run_state := setFileURL None st; run_browser := w;
         run_cleanup := None; run_reader := Some f |}.
Proof.
  intros Himage. unfold effect.
  rewrite bool_decide_eq_false_2 by by apply image_not_pdf.
  by rewrite Himage.
Qed.

Lemma render_image (f : File) (st : State) (p : jsstring) :
  startsWith (file_type f) (lit "image/") = true ->
  preview st = Some p -> startsWith p (lit "data:") = true ->
  render {| file := Some f; isLoading := false |} st
    = Card (file_name f ++ lit " • " ++ size_kb (file_size f) ++ lit " KB")
           (Image p).
Proof.
  intros Himage Hpreview Hdata. unfold render. cbn [file isLoading].
  rewrite bool_decide_eq_false_2 by by apply image_not_pdf.
  rewrite Himage, Hpreview, Hdata.
  rewrite (bool_decide_eq_false_2 (p = [])); [done|].
  intros ->. done.
Qed.

(** X23: the preview of an image.  The first render starts one reader and
    touches nothing in the browser; until the reader has fired the body shown
    is the sample text, and once it has fired with a data URL the body is
    that image. *)
Theorem image_preview_flow (f : File) (w : Browser) (result : jsstring) :
  startsWith (file_type f) (lit "image/") = true ->
  startsWith result (lit "data:") = true ->
  let header :=
    file_name f ++ lit " • " ++ size_kb (file_size f) ++ lit " KB" in
  let props := {| file := Some f; isLoading := false |} in
  (mount (Some f) w).2 = w
  /\ readers (mount (Some f) w).1 = [f]
  /\ cleanup (mount (Some f) w).1 = None
  /\ render props (state (mount (Some f) w).1)
     = Card header (Text sampleContent)
  /\ render props (state (reader_loaded result (mount (Some f) w).1))
     = Card header (Image result).
Proof.
  intros Himage Hdata header props. unfold mount.
  rewrite effect_image by done. simpl.
  split; [done|]. split; [done|]. split; [done|]. split.
  - unfold render, fallback_text. cbn [file isLoading props].
    rewrite !bool_decide_eq_false_2 by by apply image_not_pdf.
    by rewrite Himage.
  - by apply render_image.
Qed.

Section Runs.
Variable same_file : option File -> option File -> bool.

(** X24: when the file changes to an image while [preview] still holds the
    data URL of an earlier image, the effect does not clear it: the new file
    is rendered with the earlier image until its own reader fires. *)
Theorem stale_image_preview (f : File) (inst : Instance) (w : Browser)
  (p : jsstring) :
  startsWith (file_type f) (lit "image/") = true ->
  same_file (dependency inst) (Some f) = false ->
  preview (state inst) = Some p ->
  startsWith p (lit "data:") = true ->
  render {| file := Some f; isLoading := false |}
         (state (update same_file (Some f) inst w).2.1)
    = Card (file_name f ++ lit " • " ++ size_kb (file_size f) ++ lit " KB")
           (Image p).
Proof.
  intros Himage Hchanged Hpreview Hdata. unfold update.
  rewrite Hchanged, effect_image by done. simpl.
  by apply render_image.
Qed.

Lemma effect_viewer_ready file inst w :
  viewer_ready (after_effect file inst (effect file (state inst) w))
               (run_browser (effect file (state inst) w)).
Proof.
  unfold viewer_ready, effect. destruct file as [f|]; [|done].
  cbn [after_effect dependency].
  case_bool_decide as Hpdf; [|by destruct (startsWith _ _)].
  simpl. eexists. repeat split. apply lookup_insert_eq.
Qed.

Lemma selections_viewer_ready files inst w :
  viewer_ready inst w ->
  viewer_ready (selections same_file files inst w).2.1
               (selections same_file files inst w).2.2.
Proof.
  revert inst w. induction files as [|f files IH]; intros inst w Hready;
    [done|].
  simpl.
  assert (viewer_ready (update same_file f inst w).2.1
                       (update same_file f inst w).2.2) as Hnext.
  { unfold update. destruct (same_file (dependency inst) f); [done|].
    apply effect_viewer_ready. }
  destruct (update same_file f inst w) as [w1 [inst' w']].
  specialize (IH inst' w' Hnext).
  by destruct (selections same_file files inst' w') as [seen final].
Qed.

(** X25: after the first render and any number of selections, if the effect
    last ran for a PDF then the viewer is rendered with an object URL that
    the store still holds and that denotes the content of that file. *)
Theorem pdf_viewer_url_is_live (first : option File)
  (files : list (option File)) (w0 : Browser) (f : File) :
  let final :=
    (selections same_file files (mount first w0).1 (mount first w0).2).2 in
  dependency final.1 = Some f ->
  file_type f = lit "application/pdf" ->
  exists url header,
    render {| file := Some f; isLoading := false |} (state final.1)
      = Card header (EmbedPDF url)
    /\ object_urls final.2 !! url = Some (File_blob f).
Proof.
  intros final Hdep Hpdf.
  assert (viewer_ready final.1 final.2) as Hready.
  { apply selections_viewer_ready. unfold mount. simpl.
    apply (effect_viewer_ready first
             {| state := initial; dependency := None; cleanup := None;
                readers := [] |} w0). }
  unfold viewer_ready in Hready. rewrite Hdep in Hready.
  rewrite bool_decide_eq_true_2 in Hready by done.
  destruct Hready as (url & Hurl & _ & Hstore).
  exists url. eexists. split; [|done].
  unfold render. cbn [file isLoading].
  rewrite bool_decide_eq_true_2 by done. by rewrite Hurl.
Qed.

End Runs.

Lemma image_preview_flow_witness :
  render {| file := Some scan_png; isLoading := false |}
    (state (reader_loaded (lit "data:image/png;base64,iVBORw==")
              (mount (Some scan_png) initial_browser).1))
  = Card (lit "scan.png • 1.5 KB")
         (Image (lit "data:image/png;base64,iVBORw==")).
Proof.
  apply (image_preview_flow scan_png initial_browser
           (lit "data:image/png;base64,iVBORw==")); reflexivity.
Defined.

Lemma stale_image_preview_witness :
  render {| file := Some photo_jpg; isLoading := false |}
    (state
       (update fresh_objects (Some photo_jpg)
          (reader_loaded (lit "data:image/png;base64,iVBORw==")
             (mount (Some scan_png) initial_browser).1)
          initial_browser).2.1)
  = Card (lit "photo.jpg • 4.0 KB")
         (Image (lit "data:image/png;base64,iVBORw==")).
Proof.
  apply (stale_image_preview fresh_objects photo_jpg
           (reader_loaded (lit "data:image/png;base64,iVBORw==")
              (mount (Some scan_png) initial_browser).1)
           initial_browser (lit "data:image/png;base64,iVBORw=="));
    reflexivity.
Defined.

Lemma pdf_viewer_url_is_live_witness :
  exists url header,
    render {| file := Some report_pdf; isLoading := false |}
      (state
         (selections fresh_objects [Some notes_txt; Some report_pdf]
            (mount (Some report_pdf) initial_browser).1
            (mount (Some report_pdf) initial_browser).2).2.1)
    = Card header (EmbedPDF url)
    /\ object_urls
         (selections fresh_objects [Some notes_txt; Some report_pdf]
            (mount (Some report_pdf) initial_browser).1
            (mount (Some report_pdf) initial_browser).2).2.2
       !! url = Some (File_blob report_pdf).
Proof.
  apply (pdf_viewer_url_is_live fresh_objects (Some report_pdf)
           [Some notes_txt; Some report_pdf] initial_browser report_pdf);
    reflexivity.
Defined.

End PreviewFlowFacts.
